(** * bgworker: supervisor of a background worker process

  A shallow embedding of [python/bgworker/background_process.py] and the
  properties of its four classes: [Process] (the supervisor thread),
  [ConfigSubscriber], [HaEventListener] and [WaitableEvent].

  Python values are an inductive type with Python's truthiness; methods that
  touch shared objects are written in a small state-and-exception monad over
  one record holding every object the classes share (the queue, the
  application's log and thread registry, the supervisor's attributes). *)

From Stdlib Require Import ZArith Lia Bool Ascii String List.
From stdpp Require Import base option gmap strings list.
Import ListNotations.
Local Open Scope string_scope.
Local Open Scope list_scope.
Local Set Warnings "-register-all".
Local Set Warnings "-automation".

(** ** Python values *)

Module Py.

Inductive exn : Type :=
| ValueError | TypeError | KeyError | AttributeError | NameError | RuntimeError.

(** The values that travel through the queue, the CDB callbacks and the
    notification payloads.  Dictionaries are keyed by strings. *)
Inductive val : Type :=
| PyNone
| PyBool (b : bool)
| PyInt (z : Z)
| PyStr (s : string)
| PyTuple (items : list val)
| PyDict (entries : list (string * val)).

Inductive result (A : Type) : Type :=
| Ok (a : A)
| Err (e : exn).
Arguments Ok {A} a.
Arguments Err {A} e.

(** [bool(v)] *)
Definition truthy (v : val) : bool :=
  match v with
  | PyNone => false
  | PyBool b => b
  | PyInt z => negb (z =? 0)%Z
  | PyStr s => negb (String.eqb s "")
  | PyTuple items => match items with [] => false | _ => true end
  | PyDict entries => match entries with [] => false | _ => true end
  end.

(** [v == 'literal'] *)
Definition eq_str (v : val) (lit : string) : bool :=
  match v with
  | PyStr s => String.eqb s lit
  | _ => false
  end.

(** [v == n] for an integer constant [n]; [bool] is a subclass of [int]. *)
Definition eq_int (v : val) (n : Z) : bool :=
  match v with
  | PyInt z => (z =? n)%Z
  | PyBool b => ((if b then 1 else 0) =? n)%Z
  | _ => false
  end.

Fixpoint assoc (k : string) (entries : list (string * val)) : option val :=
  match entries with
  | [] => None
  | (k', v) :: rest => if String.eqb k' k then Some v else assoc k rest
  end.

Definition chars (s : string) : list val :=
  map (fun c => PyStr (String c EmptyString)) (list_ascii_of_string s).

(** [v[key]] for a string key: only a dictionary can be indexed by a
    string; a missing key is a [KeyError]. *)
Definition subscript (v : val) (key : string) : result val :=
  match v with
  | PyDict entries =>
      match assoc key entries with
      | Some x => Ok x
      | None => Err KeyError
      end
  | _ => Err TypeError
  end.

(** [a, b = v]: the right-hand side is iterated and must yield exactly two
    values. *)
Definition unpack2 (v : val) : result (val * val) :=
  let two (xs : list val) :=
    match xs with
    | [a; b] => Ok (a, b)
    | _ => Err ValueError
    end in
  match v with
  | PyTuple items => two items
  | PyStr s => two (chars s)
  | PyDict entries => two (map (fun kv => PyStr (fst kv)) entries)
  | PyNone | PyBool _ | PyInt _ => Err TypeError
  end.

(** Name lookup in a scope, innermost binding first. *)
Definition lookup_name (x : string) (scope : list (string * val)) : result val :=
  match assoc x scope with
  | Some v => Ok v
  | None => Err NameError
  end.

End Py.
Import Py.

(** ** A state monad with exceptions and blocking

  [Done a s]: the call returned [a].  [Raised e s]: it raised [e].
  [Stuck s]: it blocks (or still loops when the fuel of a loop is used up);
  [s] is the state reached. *)

Inductive outcome (S A : Type) : Type :=
| Done (a : A) (s : S)
| Raised (e : exn) (s : S)
| Stuck (s : S).
Arguments Done {S A} a s.
Arguments Raised {S A} e s.
Arguments Stuck {S A} s.

Definition M (S A : Type) : Type := S -> outcome S A.

Definition ret {S A} (a : A) : M S A := fun s => Done a s.

Definition bind {S A B} (c : M S A) (k : A -> M S B) : M S B :=
  fun s =>
    match c s with
    | Done a s' => k a s'
    | Raised e s' => Raised e s'
    | Stuck s' => Stuck s'
    end.

Definition raise {S A} (e : exn) : M S A := fun s => Raised e s.
Definition block {S A} : M S A := fun s => Stuck s.
Definition get {S} : M S S := fun s => Done s s.
Definition gets {S A} (f : S -> A) : M S A := fun s => Done (f s) s.
Definition modify {S} (f : S -> S) : M S unit := fun s => Done tt (f s).

Definition lift {S A} (r : result A) : M S A :=
  match r with
  | Ok a => ret a
  | Err e => raise e
  end.

Definition when {S} (b : bool) (c : M S unit) : M S unit :=
  if b then c else ret tt.

Declare Scope py_scope.
Delimit Scope py_scope with py.
Notation "x <- c ;; k" := (bind c (fun x => k))
  (at level 100, c at next level, right associativity) : py_scope.
Notation "c ;; k" := (bind c (fun _ => k))
  (at level 100, right associativity) : py_scope.
Local Open Scope py_scope.

(** ** WaitableEvent

  The object is a pipe; its state is the bytes written to [_write_fd] that
  have not been read from [_read_fd] yet. *)

Module WaitableEvent.

Record t : Type := { pipe : list ascii }.

(** A pipe buffers a bounded number of bytes (64 KiB on Linux); a blocking
    write waits for room, a blocking read waits for data. *)
Definition pipe_capacity : Z := 65536.

(** [os.write(fd, data)]: [None] when the call blocks. *)
Definition os_write (data : list ascii) (e : t) : option t :=
  if (Z.of_nat (length (pipe e) + length data) <=? pipe_capacity)%Z
  then Some {| pipe := pipe e ++ data |}
  else None.

(** [os.read(fd, n)]: up to [n] bytes; [None] when the call blocks. *)
Definition os_read (n : nat) (e : t) : option (list ascii * t) :=
  match pipe e with
  | [] => None
  | _ => Some (firstn n (pipe e), {| pipe := skipn n (pipe e) |})
  end.

(** [select.select([fd], [], [], ...)] reports the read end as ready when
    the pipe holds data. *)
Definition readable (e : t) : bool :=
  match pipe e with [] => false | _ => true end.

Definition __init__ : t := {| pipe := [] |}.

(** [wait(timeout)]: [timeout = None] waits without bound, so the call
    blocks on an empty pipe. *)
Definition wait (timeout : option nat) (e : t) : option bool :=
  if readable e then Some true
  else match timeout with
       | Some _ => Some false
       | None => None
       end.

Definition is_set (e : t) : option bool := wait (Some 0) e.
Definition isSet (e : t) : option bool := wait (Some 0) e.

Definition clear (e : t) : option t :=
  match isSet e with
  | Some true => snd <$> os_read 1 e
  | Some false => Some e
  | None => None
  end.

Definition set (e : t) : option t :=
  match isSet e with
  | Some false => os_write ["1"%char] e
  | Some true => Some e
  | None => None
  end.

Definition fileno (e : t) : t := e.

(** A sequence of [set()] and [clear()] calls on one object. *)
Inductive call : Type := CallSet | CallClear.

Definition do_call (c : call) (e : t) : option t :=
  match c with
  | CallSet => set e
  | CallClear => clear e
  end.

Fixpoint do_calls (cs : list call) (e : t) : option t :=
  match cs with
  | [] => Some e
  | c :: rest =>
      match do_call c e with
      | Some e' => do_calls rest e'
      | None => None
      end
  end.

End WaitableEvent.

(** ** ConfigSubscriber *)

Module ConfigSubscriber.

(** Return codes of an [iterate] callback ([ncs.ITER_*]). *)
Inductive iter_ret : Type := ITER_STOP | ITER_SUSPEND | ITER_RECURSE | ITER_CONTINUE.

(** One call of the iteration callback: the changed keypath, the kind of
    operation, and the old and new values. *)
Record change : Type := {
  keypath : string;
  operation : nat;
  oldval : val;
  newval : val
}.

Record t : Type := { config_path : string }.

Definition __init__ (config_path : string) : t := {| config_path := config_path |}.

(** [register]: the path is registered with priority 101. *)
Definition register (self : t) (registrations : list (string * nat)) : list (string * nat) :=
  registrations ++ [(config_path self, 101)].

Definition pre_iterate (self : t) : gmap string val :=
  {[ "enabled" := PyBool false ]}.

(** The dictionary is updated in place; the updated dictionary is handed
    back together with the return code. *)
Definition iterate (self : t) (keypath : string) (operation_unused : nat)
    (oldval_unused newval : val) (state : gmap string val)
  : gmap string val * iter_ret :=
  (<[ "enabled" := newval ]> state, ITER_RECURSE).

Definition should_post_iterate (self : t) (state : gmap string val) : bool := true.

(** [self.q.put(("enabled", bool(state['enabled'])))] on the shared queue. *)
Definition post_iterate (self : t) (state : gmap string val) (q : list val)
  : result (list val) :=
  match state !! "enabled" with
  | Some v => Ok (q ++ [PyTuple [PyStr "enabled"; PyBool (truthy v)]])
  | None => Err KeyError
  end.

(** Modelled from the spec: the subscription driver of the external
    [ncs.experimental.Subscriber], which is not part of this repository.
    For a commit that touches the registered path it asks [pre_iterate]
    for a fresh state, hands every change of the commit to [iterate] with
    that state (until a callback answers [ITER_STOP]), and then makes the
    single final per-commit callback [post_iterate] when
    [should_post_iterate] allows it. *)
Fixpoint diff_iterate (self : t) (changes : list change) (state : gmap string val)
  : gmap string val :=
  match changes with
  | [] => state
  | c :: rest =>
      let '(state', r) :=
        iterate self (keypath c) (operation c) (oldval c) (newval c) state in
      match r with
      | ITER_STOP => state'
      | _ => diff_iterate self rest state'
      end
  end.

(** Modelled from the spec: one commit cycle as that driver runs it,
    "collect during iteration, emit once after". *)
Definition commit (self : t) (changes : list change) (q : list val)
  : result (list val) :=
  let state := pre_iterate self in
  let state := diff_iterate self changes state in
  if should_post_iterate self state
  then post_iterate self state q
  else Ok q.

End ConfigSubscriber.

(** ** The objects shared by the supervisor and its watchers *)

Inductive level : Type := INFO | ERROR.

(** One constructor per logging call of the source; the arguments are the
    values formatted into the message. *)
Inductive logmsg : Type :=
| MsgSupervisorStarting (name : string)
| MsgHello
| MsgShouldRunNotRunning
| MsgRunningShouldNotRun
| MsgGotEvent (k v : val)
| MsgWorkerStarting (name : string)
| MsgWorkerStopping (name : string)
| MsgWorkerNotTerminated (alive : bool)
| MsgHaInit
| MsgHaRun.

(** What the supervisor does to the outside, in order: calls of [app.log]
    and the calls on the worker's [multiprocessing.Process]. *)
Inductive effect : Type :=
| Log (l : level) (m : logmsg)
| ProcStart
| ProcTerminate
| ProcJoin (timeout : nat).

(** Where a thread is: not started, at the top of its loop, blocked in its
    wait ([q.get] for the supervisor, [select] for the HA listener), or
    ended, normally or by an exception that left [run]. *)
Inductive thread_status : Type :=
| NotStarted
| AtLoopTop
| Waiting
| Ended (exc : option exn).

(** The worker process.  [bg_fun] is the caller's; all the supervisor can
    observe of it is whether the process is alive and whether a termination
    request ends it within the grace period. *)
Record BgFun : Type := { ignores_terminate : bool }.

Module Worker.

Record t : Type := {
  alive : bool;
  stubborn : bool;
  term_requested : bool
}.

(** [multiprocessing.Process(target=bg_fun)] followed by [start()] *)
Definition start (bg_fun : BgFun) : t :=
  {| alive := true; stubborn := ignores_terminate bg_fun; term_requested := false |}.

Definition terminate (p : t) : t :=
  {| alive := alive p; stubborn := stubborn p; term_requested := true |}.

(** [join(timeout)]: a process asked to terminate is gone by the end of the
    wait unless it ignores the request. *)
Definition join (timeout : nat) (p : t) : t :=
  {| alive := alive p && negb (term_requested p && negb (stubborn p));
     stubborn := stubborn p;
     term_requested := term_requested p |}.

Definition is_alive (p : t) : bool := alive p.

End Worker.

(** The constants of [_ncs.events] used by the listener. *)
Record Events : Type := {
  NOTIF_HA_INFO : Z;
  HA_INFO_IS_MASTER : Z;
  HA_INFO_IS_NONE : Z
}.

(** The CDB subscriber thread of [ncs.experimental.Subscriber]: what was
    registered on it and whether it runs. *)
Record Subscriber : Type := {
  registrations : list (string * nat);
  sub_running : bool
}.

(** The HA listener's own attributes, its thread, and the notifications
    that wait on its event socket. *)
Record Listener : Type := {
  exit_flag : WaitableEvent.t;
  ha_thread : thread_status;
  event_socket : list val
}.

Record World : Type := {
  (* the application *)
  trace : list effect;
  running_threads : list string;
  events : Events;
  (* the supervisor *)
  name : string;
  bg_fun : BgFun;
  config_path : option string;
  q : list val;
  config_subscriber : option Subscriber;
  ha_event_listener : Listener;
  worker : option Worker.t;
  config_enabled : val;
  ha_enabled : bool;
  ha_master : option bool;
  thread : thread_status
}.

Definition set_trace (x : list effect) (w : World) : World :=
  {| trace := x; running_threads := running_threads w; events := events w;
     name := name w; bg_fun := bg_fun w; config_path := config_path w; q := q w;
     config_subscriber := config_subscriber w;
     ha_event_listener := ha_event_listener w; worker := worker w;
     config_enabled := config_enabled w; ha_enabled := ha_enabled w;
     ha_master := ha_master w; thread := thread w |}.

Definition set_running_threads (x : list string) (w : World) : World :=
  {| trace := trace w; running_threads := x; events := events w;
     name := name w; bg_fun := bg_fun w; config_path := config_path w; q := q w;
     config_subscriber := config_subscriber w;
     ha_event_listener := ha_event_listener w; worker := worker w;
     config_enabled := config_enabled w; ha_enabled := ha_enabled w;
     ha_master := ha_master w; thread := thread w |}.

Definition set_q (x : list val) (w : World) : World :=
  {| trace := trace w; running_threads := running_threads w; events := events w;
     name := name w; bg_fun := bg_fun w; config_path := config_path w; q := x;
     config_subscriber := config_subscriber w;
     ha_event_listener := ha_event_listener w; worker := worker w;
     config_enabled := config_enabled w; ha_enabled := ha_enabled w;
     ha_master := ha_master w; thread := thread w |}.

Definition set_config_subscriber (x : option Subscriber) (w : World) : World :=
  {| trace := trace w; running_threads := running_threads w; events := events w;
     name := name w; bg_fun := bg_fun w; config_path := config_path w; q := q w;
     config_subscriber := x;
     ha_event_listener := ha_event_listener w; worker := worker w;
     config_enabled := config_enabled w; ha_enabled := ha_enabled w;
     ha_master := ha_master w; thread := thread w |}.

Definition set_ha_event_listener (x : Listener) (w : World) : World :=
  {| trace := trace w; running_threads := running_threads w; events := events w;
     name := name w; bg_fun := bg_fun w; config_path := config_path w; q := q w;
     config_subscriber := config_subscriber w;
     ha_event_listener := x; worker := worker w;
     config_enabled := config_enabled w; ha_enabled := ha_enabled w;
     ha_master := ha_master w; thread := thread w |}.

Definition set_worker (x : option Worker.t) (w : World) : World :=
  {| trace := trace w; running_threads := running_threads w; events := events w;
     name := name w; bg_fun := bg_fun w; config_path := config_path w; q := q w;
     config_subscriber := config_subscriber w;
     ha_event_listener := ha_event_listener w; worker := x;
     config_enabled := config_enabled w; ha_enabled := ha_enabled w;
     ha_master := ha_master w; thread := thread w |}.

Definition set_config_enabled (x : val) (w : World) : World :=
  {| trace := trace w; running_threads := running_threads w; events := events w;
     name := name w; bg_fun := bg_fun w; config_path := config_path w; q := q w;
     config_subscriber := config_subscriber w;
     ha_event_listener := ha_event_listener w; worker := worker w;
     config_enabled := x; ha_enabled := ha_enabled w;
     ha_master := ha_master w; thread := thread w |}.

Definition set_ha_enabled (x : bool) (w : World) : World :=
  {| trace := trace w; running_threads := running_threads w; events := events w;
     name := name w; bg_fun := bg_fun w; config_path := config_path w; q := q w;
     config_subscriber := config_subscriber w;
     ha_event_listener := ha_event_listener w; worker := worker w;
     config_enabled := config_enabled w; ha_enabled := x;
     ha_master := ha_master w; thread := thread w |}.

Definition set_ha_master (x : option bool) (w : World) : World :=
  {| trace := trace w; running_threads := running_threads w; events := events w;
     name := name w; bg_fun := bg_fun w; config_path := config_path w; q := q w;
     config_subscriber := config_subscriber w;
     ha_event_listener := ha_event_listener w; worker := worker w;
     config_enabled := config_enabled w; ha_enabled := ha_enabled w;
     ha_master := x; thread := thread w |}.

Definition set_thread (x : thread_status) (w : World) : World :=
  {| trace := trace w; running_threads := running_threads w; events := events w;
     name := name w; bg_fun := bg_fun w; config_path := config_path w; q := q w;
     config_subscriber := config_subscriber w;
     ha_event_listener := ha_event_listener w; worker := worker w;
     config_enabled := config_enabled w; ha_enabled := ha_enabled w;
     ha_master := ha_master w; thread := x |}.

(** [app.log.info], [app.log.error] *)
Definition log_info (m : logmsg) : M World unit :=
  modify (fun w => set_trace (trace w ++ [Log INFO m]) w).

Definition log_error (m : logmsg) : M World unit :=
  modify (fun w => set_trace (trace w ++ [Log ERROR m]) w).

Definition emit (e : effect) : M World unit :=
  modify (fun w => set_trace (trace w ++ [e]) w).

(** [app.add_running_thread], [app.del_running_thread] *)
Definition add_running_thread (n : string) : M World unit :=
  modify (fun w => set_running_threads (running_threads w ++ [n]) w).

Fixpoint remove_first (n : string) (l : list string) : list string :=
  match l with
  | [] => []
  | x :: rest => if String.eqb x n then rest else x :: remove_first n rest
  end.

Definition del_running_thread (n : string) : M World unit :=
  modify (fun w => set_running_threads (remove_first n (running_threads w)) w).

(** [q.put(item)] *)
Definition q_put (item : val) : M World unit :=
  modify (fun w => set_q (q w ++ [item]) w).

(** [q.get(timeout=1)]: [None] stands for [Queue.Empty] after the timeout. *)
Definition q_get : M World (option val) :=
  fun w =>
    match q w with
    | [] => Done None w
    | item :: rest => Done (Some item) (set_q rest w)
    end.

(** How one pass through a thread's loop ends: [continue]/fall through to
    the next pass, or [return]. *)
Inductive ctl : Type := Continue | Return.

(** ** HaEventListener *)

Module HaEventListener.

Definition set_exit_flag (x : WaitableEvent.t) (l : Listener) : Listener :=
  {| exit_flag := x; ha_thread := ha_thread l; event_socket := event_socket l |}.

Definition set_ha_thread (x : thread_status) (l : Listener) : Listener :=
  {| exit_flag := exit_flag l; ha_thread := x; event_socket := event_socket l |}.

Definition set_event_socket (x : list val) (l : Listener) : Listener :=
  {| exit_flag := exit_flag l; ha_thread := ha_thread l; event_socket := x |}.

Definition update (f : Listener -> Listener) : M World unit :=
  modify (fun w => set_ha_event_listener (f (ha_event_listener w)) w).

Definition thread_name : string := "HaEventListener (HA event listener)".

(** [__init__]: [notifications] is what the HA notification stream will
    deliver on the socket the thread connects. *)
Definition __init__ (notifications : list val) : M World unit :=
  log_info MsgHaInit;;
  modify (set_ha_event_listener
            {| exit_flag := WaitableEvent.__init__;
               ha_thread := NotStarted;
               event_socket := notifications |}).

(** [notification['hnot']['type']] *)
Definition notif_type (notification : val) : result val :=
  match subscript notification "hnot" with
  | Ok hnot => subscript hnot "type"
  | Err e => Err e
  end.

(** [run], up to its loop. *)
Definition prelude : M World unit :=
  add_running_thread thread_name;;
  log_info MsgHaRun.

(** One pass of [while True:].  [select] returns the ready objects; it
    blocks while neither the exit flag nor the socket is ready. *)
Definition iteration : M World ctl :=
  w <- get;;
  let self := ha_event_listener w in
  if WaitableEvent.readable (exit_flag self) then ret Return
  else
    match event_socket self with
    | [] => block
    | notification :: rest =>
        update (set_event_socket rest);;
        ha_notif_type <- lift (notif_type notification);;
        (if eq_int ha_notif_type (HA_INFO_IS_MASTER (events w))
         then q_put (PyTuple [PyStr "ha-mode"; PyStr "master"])
         else if eq_int ha_notif_type (HA_INFO_IS_NONE (events w))
         then q_put (PyTuple [PyStr "ha-mode"; PyStr "none"])
         else ret tt);;
        ret Continue
    end.

Fixpoint loop (fuel : nat) : M World unit :=
  match fuel with
  | 0 => block
  | S fuel' =>
      c <- iteration;;
      match c with
      | Return => ret tt
      | Continue => loop fuel'
      end
  end.

Definition run (fuel : nat) : M World unit :=
  prelude;;
  loop fuel.

(** [start()]: the new thread runs up to its first [select]. *)
Definition start : M World unit :=
  prelude;;
  update (set_ha_thread Waiting).

(** [join()]: wait until the thread has left [run], by return or by an
    uncaught exception. *)
Definition join (fuel : nat) : M World unit :=
  fun w =>
    match ha_thread (ha_event_listener w) with
    | NotStarted => Raised RuntimeError w
    | Ended _ => Done tt w
    | AtLoopTop | Waiting =>
        match loop fuel w with
        | Done _ w' => update (set_ha_thread (Ended None)) w'
        | Raised e w' => update (set_ha_thread (Ended (Some e))) w'
        | Stuck w' => Stuck w'
        end
    end.

Definition stop (fuel : nat) : M World unit :=
  w <- get;;
  match WaitableEvent.set (exit_flag (ha_event_listener w)) with
  | None => block
  | Some flag =>
      update (set_exit_flag flag);;
      join fuel;;
      del_running_thread thread_name
  end.

End HaEventListener.

(** ** Process, the supervisor *)

Module Process.

(** The application object handed to the constructor. *)
Record App : Type := {
  app_module : string;
  app_class : string;
  app_log : list effect;
  app_threads : list string;
  app_events : Events;
  ha_notifications : list val
}.

(** The read transaction opened by the constructor: the point-in-time
    answers of the configuration store. *)
Record Trans : Type := {
  get_elem : string -> val;
  exists_ : string -> bool;
  get_node : string -> string
}.

Definition supervisor_name (n : string) : string := (n ++ " (Supervisor)")%string.

(** The data-valued local names of [__init__] when the HA state is
    determined.  The other names in scope ([self], [app], [bg_fun],
    [bg_fun_args], [subscriber_iter], [t_read], and the module's imports and
    classes) are objects; none of them is called [mode]. *)
Definition locals (config_path : option string) (t_read : Trans) (ha_mode : string)
  : list (string * val) :=
  [("ha_mode", PyStr ha_mode)]
  ++ match config_path with
     | Some p => [("enabled", get_elem t_read p); ("config_path", PyStr p)]
     | None => [("config_path", PyNone)]
     end.

(** The constructor.  [self] starts with the attributes that are assigned
    later still unset ([ha_master := None]) or at a placeholder that is
    overwritten before it can be read. *)
Definition __init__ (app : App) (bg_fun : BgFun) (config_path : option string)
    (t_read : Trans) : outcome World unit :=
  let name := (app_module app ++ "." ++ app_class app)%string in
  let self :=
    {| trace := app_log app; running_threads := app_threads app;
       events := app_events app;
       name := name; bg_fun := bg_fun; config_path := config_path;
       q := [];
       config_subscriber := None;
       ha_event_listener :=
         {| exit_flag := WaitableEvent.__init__; ha_thread := NotStarted;
            event_socket := [] |};
       worker := None;
       config_enabled := PyNone; ha_enabled := false; ha_master := None;
       thread := NotStarted |} in
  (log_info (MsgSupervisorStarting name);;
   (* start the config subscriber thread *)
   match config_path with
   | Some p =>
       let subscriber_iter := ConfigSubscriber.__init__ p in
       modify (set_config_subscriber
                 (Some {| registrations := ConfigSubscriber.register subscriber_iter [];
                          sub_running := true |}))
   | None => ret tt
   end;;
   (* start the HA event listener thread *)
   HaEventListener.__init__ (ha_notifications app);;
   HaEventListener.start;;
   modify (set_worker None);;
   (* read initial configuration *)
   match config_path with
   | Some p =>
       let enabled := get_elem t_read p in
       modify (set_config_enabled (PyBool (truthy enabled)))
   | None => modify (set_config_enabled (PyBool true))
   end;;
   (* check if HA is enabled *)
   let ha_enabled := exists_ t_read "/tfnm:ncs-state/tfnm:ha" in
   modify (set_ha_enabled ha_enabled);;
   (* determine HA state if HA is enabled *)
   if ha_enabled then
     let ha_mode := get_node t_read "/tfnm:ncs-state/tfnm:ha/tfnm:mode" in
     mode <- lift (lookup_name "mode" (locals config_path t_read ha_mode));;
     modify (set_ha_master (Some (eq_str mode "master")))
   else ret tt) self.

(** [self.config_enabled and (not self.ha_enabled or self.ha_master)], with
    Python's short-circuit evaluation: [ha_master] is read only when it is
    needed, and reading it before it was ever assigned is an
    [AttributeError]. *)
Definition should_run : M World val :=
  w <- get;;
  if truthy (config_enabled w) then
    if negb (ha_enabled w) then ret (PyBool true)
    else
      match ha_master w with
      | Some m => ret (PyBool m)
      | None => raise AttributeError
      end
  else ret (config_enabled w).

Definition worker_start : M World unit :=
  w <- get;;
  log_info (MsgWorkerStarting (name w));;
  modify (set_worker (Some (Worker.start (bg_fun w))));;
  emit ProcStart.

Definition worker_stop : M World unit :=
  w <- get;;
  log_info (MsgWorkerStopping (name w));;
  match worker w with
  | None => raise AttributeError
  | Some p =>
      modify (set_worker (Some (Worker.terminate p)));;
      emit ProcTerminate;;
      modify (set_worker (Some (Worker.join 1 (Worker.terminate p))));;
      emit (ProcJoin 1);;
      when (Worker.is_alive (Worker.join 1 (Worker.terminate p)))
           (log_error (MsgWorkerNotTerminated
                         (Worker.is_alive (Worker.join 1 (Worker.terminate p)))))
  end.

Definition worker_is_none (w : World) : bool :=
  match worker w with None => true | Some _ => false end.

Definition worker_is_alive (w : World) : bool :=
  match worker w with None => false | Some p => Worker.is_alive p end.

(** Lines 68 to 77: bring the worker in line with [should_run]. *)
Definition reconcile : M World unit :=
  should_run <- should_run;;
  w <- get;;
  when (truthy should_run && (worker_is_none w || negb (worker_is_alive w)))
       (log_info MsgShouldRunNotRunning;;
        when (negb (worker_is_none w)) worker_stop;;
        worker_start);;
  w <- get;;
  when (negb (worker_is_none w) && worker_is_alive w && negb (truthy should_run))
       (log_info MsgRunningShouldNotRun;;
        worker_stop).

(** Lines 85 to 90: what is done with a dequeued item. *)
Definition handle (item : val) : M World ctl :=
  kv <- lift (unpack2 item);;
  let '(k, v) := kv in
  log_info (MsgGotEvent k v);;
  if eq_str k "exit" then ret Return
  else if eq_str k "enabled" then
    modify (set_config_enabled v);;
    ret Continue
  else ret Continue.

(** Lines 79 to 90: the timed [get] and what follows it. *)
Definition receive : M World ctl :=
  item <- q_get;;
  match item with
  | None => ret Continue
  | Some item => handle item
  end.

(** One pass of [while True:]. *)
Definition iteration : M World ctl :=
  reconcile;;
  receive.

Fixpoint loop (fuel : nat) : M World unit :=
  match fuel with
  | 0 => block
  | S fuel' =>
      c <- iteration;;
      match c with
      | Return => ret tt
      | Continue => loop fuel'
      end
  end.

(** The thread taken up again where it waits in [q.get]. *)
Definition resume (fuel : nat) : M World unit :=
  c <- receive;;
  match c with
  | Return => ret tt
  | Continue => loop fuel
  end.

Definition prelude : M World unit :=
  w <- get;;
  add_running_thread (supervisor_name (name w));;
  log_info MsgHello.

Definition run (fuel : nat) : M World unit :=
  prelude;;
  loop fuel.

(** [start()] of [threading.Thread]: the new thread enters [run]. *)
Definition start : M World unit :=
  prelude;;
  modify (set_thread AtLoopTop).

(** [self.join()]: wait until the supervisor thread has left [run], by
    return or by an uncaught exception; how it ended is recorded. *)
Definition join (fuel : nat) : M World unit :=
  fun w =>
    match thread w with
    | NotStarted => Raised RuntimeError w
    | Ended _ => Done tt w
    | AtLoopTop =>
        match loop fuel w with
        | Done _ w' => Done tt (set_thread (Ended None) w')
        | Raised e w' => Done tt (set_thread (Ended (Some e)) w')
        | Stuck w' => Stuck w'
        end
    | Waiting =>
        match resume fuel w with
        | Done _ w' => Done tt (set_thread (Ended None) w')
        | Raised e w' => Done tt (set_thread (Ended (Some e)) w')
        | Stuck w' => Stuck w'
        end
    end.

(** [Subscriber.stop()] of the CDB subscriber thread. *)
Definition subscriber_stop (s : Subscriber) : Subscriber :=
  {| registrations := registrations s; sub_running := false |}.

Definition stop (fuel : nat) : M World unit :=
  w <- get;;
  (* stop CDB subscriber *)
  match config_path w with
  | Some _ =>
      match config_subscriber w with
      | Some s => modify (set_config_subscriber (Some (subscriber_stop s)))
      | None => raise AttributeError
      end
  | None => ret tt
  end;;
  (* stop the HA event listener *)
  HaEventListener.stop fuel;;
  (* stop the background worker process *)
  worker_stop;;
  (* stop us, the supervisor *)
  q_put (PyTuple [PyStr "exit"]);;
  join fuel;;
  del_running_thread (supervisor_name (name w)).

End Process.

(** ** Queue items *)

Definition exit_item : val := PyTuple [PyStr "exit"].
Definition enabled_item (v : bool) : val := PyTuple [PyStr "enabled"; PyBool v].
Definition ha_mode_item (role : string) : val := PyTuple [PyStr "ha-mode"; PyStr role].

(** ** Predicates of the statements *)

(** Every object reached from a fresh one holds at most the single byte of
    one [set()]. *)
Definition at_most_one (e : WaitableEvent.t) : Prop :=
  WaitableEvent.pipe e = [] \/ WaitableEvent.pipe e = ["1"%char].

(** ** What the supervisor's loop leaves alone

    The passes of the loop touch the log, the worker and [config_enabled];
    the watchers, the thread registry and the thread's own status are not
    theirs to change. *)

Definition shell (w w' : World) : Prop :=
  config_path w' = config_path w /\
  config_subscriber w' = config_subscriber w /\
  ha_event_listener w' = ha_event_listener w /\
  running_threads w' = running_threads w /\
  thread w' = thread w.

(** A computation that never blocks and changes neither the shell nor the
    queue. *)
Definition steady {A} (c : M World A) : Prop :=
  forall w,
    match c w with
    | Done _ w' | Raised _ w' => shell w w' /\ q w' = q w
    | Stuck _ => False
    end.

(** The exit flag holds nothing, or the one byte of a [set()]. *)
Definition flag_ok (e : WaitableEvent.t) : bool :=
  match WaitableEvent.pipe e with
  | [] => true
  | [c] => Ascii.eqb c "1"
  | _ => false
  end.

Definition started (t : thread_status) : bool :=
  match t with
  | NotStarted => false
  | _ => true
  end.

(** The supervisor can be stopped: the attributes [stop()] reads exist, both
    threads were started, and the listener's exit flag holds at most the
    byte of one [set()]. *)
Definition stoppable (w : World) : bool :=
  match config_path w, config_subscriber w with
  | Some _, None => false
  | _, _ => true
  end
  && flag_ok (exit_flag (ha_event_listener w))
  && started (ha_thread (ha_event_listener w))
  && started (thread w).

(** The thread has left [run], one way or the other. *)
Definition left_run (o : outcome World unit) (w' : World) : Prop :=
  o = Done tt w' \/ exists e, o = Raised e w'.

(** The state in which [stop()] reaches [self.join()]: the subscriber
    stopped, the listener ended with its flag set, the worker asked once to
    terminate and waited for, and the exit item queued. *)
Definition before_join (w : World) (p : Worker.t) (rl : option exn) : World :=
  let p' := Worker.join 1 (Worker.terminate p) in
  let w1 := match config_path w with
            | Some _ => set_config_subscriber
                          (Process.subscriber_stop <$> config_subscriber w) w
            | None => w
            end in
  let w2 := set_running_threads
              (remove_first HaEventListener.thread_name (running_threads w1))
              (set_ha_event_listener
                 {| exit_flag := {| WaitableEvent.pipe := ["1"%char] |};
                    ha_thread := Ended rl;
                    event_socket := event_socket (ha_event_listener w1) |} w1) in
  let w3 := set_trace
              (trace w2
               ++ [Log INFO (MsgWorkerStopping (name w2)); ProcTerminate; ProcJoin 1]
               ++ (if Worker.is_alive p'
                   then [Log ERROR (MsgWorkerNotTerminated true)] else []))
              (set_worker (Some p') w2) in
  set_q (q w3 ++ [exit_item]) w3.

(** ** Scenarios *)

Module Scenario.

Definition sample_events : Events :=
  {| NOTIF_HA_INFO := 16; HA_INFO_IS_MASTER := 5; HA_INFO_IS_NONE := 6 |}.

Definition app : Process.App :=
  {| Process.app_module := "bgworker.main";
     Process.app_class := "Main";
     Process.app_log := [];
     Process.app_threads := [];
     Process.app_events := sample_events;
     Process.ha_notifications := [] |}.

Definition leaf_path : string := "/bgworker/enabled".
Definition ha_path : string := "/tfnm:ncs-state/tfnm:ha".

(** A configuration store whose leaf holds [enabled], with or without the
    HA subtree. *)
Definition store (enabled : bool) (ha : bool) (mode : string) : Process.Trans :=
  {| Process.get_elem := fun _ => PyBool enabled;
     Process.exists_ := fun p => String.eqb p ha_path && ha;
     Process.get_node := fun _ => mode |}.

Definition obedient : BgFun := {| ignores_terminate := false |}.
Definition deaf : BgFun := {| ignores_terminate := true |}.

Definition state_of {A} (o : outcome World A) : World :=
  match o with
  | Done _ w | Raised _ w | Stuck w => w
  end.

(** The supervisor thread run up to the point where it waits in [q.get]. *)
Definition until_get : M World unit :=
  Process.reconcile;;
  modify (set_thread Waiting).

(** A supervisor constructed on a store without HA, started, and waiting
    for its first event. *)
Definition supervised (bg : BgFun) (enabled : bool) : World :=
  state_of ((Process.start;; until_get)
              (state_of (Process.__init__ app bg (Some leaf_path)
                           (store enabled false "none")))).

(** The same with two events waiting in the queue. *)
Definition enabled_then_ha_none : World :=
  set_q [enabled_item true; ha_mode_item "none"] (supervised obedient true).

(** A listener with a payload without the ["hnot"] entry on its socket,
    followed by a well-formed master notification. *)
Definition master_notification : val :=
  PyDict [("type", PyInt 16); ("hnot", PyDict [("type", PyInt 5)])].
Definition malformed_notification : val := PyDict [("type", PyInt 16)].

Definition listening : World :=
  set_ha_event_listener
    (HaEventListener.set_event_socket [malformed_notification; master_notification]
       (ha_event_listener (supervised obedient true)))
    (supervised obedient true).

End Scenario.

(** ** Further predicates of the statements *)

(** The run decision as a boolean of the three attributes. *)
Definition decision (w : World) : bool :=
  truthy (config_enabled w)
  && (negb (ha_enabled w) || match ha_master w with Some m => m | None => false end).

(** [ha_master] can be read whenever the decision needs it. *)
Definition ha_known (w : World) : bool :=
  match ha_master w with
  | Some _ => true
  | None => negb (ha_enabled w)
  end.

(** The tracked worker, if any, gives way to a termination request. *)
Definition obedient_worker (w : World) : bool :=
  match worker w with
  | Some p => negb (Worker.stubborn p)
  | None => true
  end.

(** What one pass of the loop records when it stops a worker that ignores
    the request. *)
Definition futile_stop (n : string) : list effect :=
  [Log INFO MsgRunningShouldNotRun; Log INFO (MsgWorkerStopping n);
   ProcTerminate; ProcJoin 1; Log ERROR (MsgWorkerNotTerminated true)].

(** The role type can be read off a notification. *)
Definition well_formed (notification : val) : bool :=
  match HaEventListener.notif_type notification with
  | Ok _ => true
  | Err _ => false
  end.

(** The queue items that one notification gives rise to. *)
Definition emitted (ev : Events) (notification : val) : list val :=
  match HaEventListener.notif_type notification with
  | Ok t =>
      if eq_int t (HA_INFO_IS_MASTER ev) then [ha_mode_item "master"]
      else if eq_int t (HA_INFO_IS_NONE ev) then [ha_mode_item "none"]
      else []
  | Err _ => []
  end.

(** The value the subscriber reports for a commit: the one recorded last,
    or the default of [pre_iterate]. *)
Definition reported (changes : list ConfigSubscriber.change) : bool :=
  match last (map ConfigSubscriber.newval changes) with
  | Some v => truthy v
  | None => false
  end.

(** A supervisor in which [reconcile] has its way: [ha_master] can be read,
    and neither the tracked worker nor any worker [bg_fun] will run ignores
    a termination request. *)
Definition tame (w : World) : bool :=
  ha_known w && obedient_worker w && negb (ignores_terminate (bg_fun w)).

(** * Properties *)

(** ** WaitableEvent *)

Section WaitableEventFacts.
Import WaitableEvent.

Lemma fresh_at_most_one : at_most_one __init__.
Proof. now left. Qed.

Lemma set_total (e : t) :
  at_most_one e -> set e = Some {| pipe := ["1"%char] |}.
Proof.
  destruct e as [p]; intros [H | H]; simpl in H; subst p; reflexivity.
Qed.

Lemma clear_total (e : t) :
  at_most_one e -> clear e = Some {| pipe := [] |}.
Proof.
  destruct e as [p]; intros [H | H]; simpl in H; subst p; reflexivity.
Qed.

Lemma do_call_at_most_one (c : call) (e : t) :
  at_most_one e -> exists e', do_call c e = Some e' /\ at_most_one e'.
Proof.
  intros H. destruct c; simpl.
  - rewrite (set_total e H). eexists; split; [reflexivity | now right].
  - rewrite (clear_total e H). eexists; split; [reflexivity | now left].
Qed.

Lemma do_calls_at_most_one (cs : list call) :
  forall e, at_most_one e -> exists e', do_calls cs e = Some e' /\ at_most_one e'.
Proof.
  induction cs as [| c cs IH]; intros e H; simpl.
  - now exists e.
  - destruct (do_call_at_most_one c e H) as (e1 & -> & H1). now apply IH.
Qed.

End WaitableEventFacts.

(** C8: on a [WaitableEvent] in any state [e] that calls of [set()] and
    [clear()] can bring a fresh object to, none of these calls blocks or
    fails; [set()] twice leaves the same state [s] as [set()] once, with the
    signal set and one byte buffered, a single [clear()] then leaves it
    clear, and [clear()] on a clear signal changes nothing.  On [e] itself,
    [set()] is a no-op when it is set and [clear()] a no-op when it is
    clear. *)
Theorem waitable_event_set_clear_idempotent (cs : list WaitableEvent.call) :
  exists e s c : WaitableEvent.t,
    WaitableEvent.do_calls cs WaitableEvent.__init__ = Some e /\
    WaitableEvent.set e = Some s /\
    WaitableEvent.set s = Some s /\
    WaitableEvent.isSet s = Some true /\
    length (WaitableEvent.pipe s) = 1 /\
    WaitableEvent.clear s = Some c /\
    WaitableEvent.isSet c = Some false /\
    WaitableEvent.clear c = Some c /\
    WaitableEvent.set e = Some (if WaitableEvent.readable e then e else s) /\
    WaitableEvent.clear e = Some (if WaitableEvent.readable e then c else e).
Proof.
  destruct (do_calls_at_most_one cs _ fresh_at_most_one) as (e & He & Hinv).
  exists e, {| WaitableEvent.pipe := ["1"%char] |}, {| WaitableEvent.pipe := [] |}.
  split; [exact He |].
  split; [now apply set_total |].
  do 6 (split; [reflexivity |]).
  destruct e as [p]; destruct Hinv as [H | H]; simpl in H; subst p;
    split; reflexivity.
Qed.

(** ** ConfigSubscriber *)

Section ConfigSubscriberFacts.
Import ConfigSubscriber.
Variable self : ConfigSubscriber.t.

Lemma diff_iterate_enabled (changes : list change) :
  forall state : gmap string val,
    diff_iterate self changes state !! "enabled" =
    match last (map newval changes) with
    | Some v => Some v
    | None => state !! "enabled"
    end.
Proof.
  induction changes as [| c rest IH]; intros state; simpl.
  - reflexivity.
  - rewrite IH. destruct rest as [| c' rest']; simpl.
    + now rewrite lookup_insert_eq.
    + change (last (newval c :: newval c' :: map newval rest'))
        with (last (newval c' :: map newval rest')).
      destruct (last (newval c' :: map newval rest')) eqn:E; [reflexivity |].
      apply last_None in E. discriminate E.
Qed.

End ConfigSubscriberFacts.

(** C6: a commit that touches the watched path with one or more changes
    (three, say) puts exactly one item on the queue, [("enabled", v)],
    where [v] is the boolean of the value recorded last during the
    iteration. *)
Theorem commit_emits_one_final_value
    (self : ConfigSubscriber.t) (changes : list ConfigSubscriber.change)
    (final : ConfigSubscriber.change) (q : list val) :
  ConfigSubscriber.commit self (changes ++ [final]) q =
  Ok (q ++ [PyTuple [PyStr "enabled";
                     PyBool (truthy (ConfigSubscriber.newval final))]]).
Proof.
  unfold ConfigSubscriber.commit, ConfigSubscriber.should_post_iterate,
    ConfigSubscriber.post_iterate.
  rewrite diff_iterate_enabled, map_app.
  change (map ConfigSubscriber.newval [final]) with [ConfigSubscriber.newval final].
  rewrite last_snoc. reflexivity.
Qed.

(** C10: a commit during which [iterate] is never called still puts exactly
    one item on the queue, and it carries the default of [pre_iterate]:
    [("enabled", False)]. *)
Theorem commit_without_changes_emits_false (self : ConfigSubscriber.t) (q : list val) :
  ConfigSubscriber.commit self [] q = Ok (q ++ [enabled_item false]).
Proof. reflexivity. Qed.

(** ** The run decision *)

(** C1: for each of the eight values of [(config_enabled, ha_enabled,
    ha_master)] the decision computed at the top of the loop is
    [config_enabled && (!ha_enabled || ha_master)], and computing it changes
    nothing. *)
Theorem should_run_truth_table (w : World) (c h m : bool) :
  let w' := set_ha_master (Some m) (set_ha_enabled h (set_config_enabled (PyBool c) w)) in
  Process.should_run w' = Done (PyBool (c && (negb h || m))) w'.
Proof. destruct c, h, m; reflexivity. Qed.


Lemma shell_refl (w : World) : shell w w.
Proof. repeat split. Qed.

Lemma shell_trans (w1 w2 w3 : World) : shell w1 w2 -> shell w2 w3 -> shell w1 w3.
Proof.
  intros (a1 & b1 & c1 & d1 & e1) (a2 & b2 & c2 & d2 & e2).
  repeat split; congruence.
Qed.

Lemma steady_ret {A} (a : A) : steady (ret a).
Proof. intros w. simpl. split; [apply shell_refl | reflexivity]. Qed.

Lemma steady_raise {A} (e : exn) : steady (@raise World A e).
Proof. intros w. simpl. split; [apply shell_refl | reflexivity]. Qed.

Lemma steady_get : steady (@get World).
Proof. intros w. simpl. split; [apply shell_refl | reflexivity]. Qed.

Lemma steady_lift {A} (r : result A) : steady (lift r).
Proof. destruct r; [apply steady_ret | apply steady_raise]. Qed.

Lemma steady_bind {A B} (c : M World A) (k : A -> M World B) :
  steady c -> (forall a, steady (k a)) -> steady (bind c k).
Proof.
  intros Hc Hk w. unfold bind. specialize (Hc w).
  destruct (c w) as [a w1 | e w1 | w1]; [| exact Hc | exact Hc].
  destruct Hc as [Hs Hq]. specialize (Hk a w1).
  destruct (k a w1) as [b w2 | e w2 | w2]; [| | exact Hk];
    destruct Hk as [Hs' Hq']; (split; [eapply shell_trans; eassumption | congruence]).
Qed.

Lemma steady_when (b : bool) (c : M World unit) : steady c -> steady (when b c).
Proof. intros H. destruct b; [exact H | apply steady_ret]. Qed.

Lemma steady_set_trace (f : World -> list effect) :
  steady (modify (fun w => set_trace (f w) w)).
Proof. intros w. simpl. repeat split. Qed.

Lemma steady_log_info (m : logmsg) : steady (log_info m).
Proof. apply steady_set_trace. Qed.

Lemma steady_log_error (m : logmsg) : steady (log_error m).
Proof. apply steady_set_trace. Qed.

Lemma steady_emit (e : effect) : steady (emit e).
Proof. apply steady_set_trace. Qed.

Lemma steady_set_worker (x : option Worker.t) : steady (modify (set_worker x)).
Proof. intros w. simpl. repeat split. Qed.

Lemma steady_set_config_enabled (x : val) : steady (modify (set_config_enabled x)).
Proof. intros w. simpl. repeat split. Qed.

Create HintDb steady.
#[local] Hint Resolve steady_ret steady_raise steady_get steady_lift steady_when
  steady_log_info steady_log_error steady_emit steady_set_worker
  steady_set_config_enabled : steady.

Ltac steady_step :=
  match goal with
  | |- steady (bind _ _) => apply steady_bind; [| intros ?]
  | |- steady (when _ _) => apply steady_when
  | |- steady (match ?x with _ => _ end) => destruct x
  | |- steady (if ?x then _ else _) => destruct x
  | |- steady _ => solve [auto with steady]
  end.

Lemma steady_should_run : steady Process.should_run.
Proof. unfold Process.should_run. repeat steady_step. Qed.

Lemma steady_worker_start : steady Process.worker_start.
Proof. unfold Process.worker_start. repeat steady_step. Qed.

Lemma steady_worker_stop : steady Process.worker_stop.
Proof. unfold Process.worker_stop. repeat steady_step. Qed.

#[local] Hint Resolve steady_should_run steady_worker_start steady_worker_stop : steady.

Lemma steady_reconcile : steady Process.reconcile.
Proof. unfold Process.reconcile. repeat steady_step. Qed.

Lemma steady_handle (item : val) : steady (Process.handle item).
Proof. unfold Process.handle. repeat steady_step. Qed.

(** ** The supervisor's loop on a queue that ends with the exit item *)

Lemma receive_exit_only (w : World) :
  q w = [exit_item] ->
  Process.receive w = Raised ValueError (set_q [] w).
Proof.
  intros Hq. unfold Process.receive, bind, q_get. rewrite Hq. reflexivity.
Qed.

Lemma receive_other (w : World) (item : val) (rest : list val) :
  q w = item :: rest ->
  Process.receive w = Process.handle item (set_q rest w).
Proof.
  intros Hq. unfold Process.receive, bind, q_get. rewrite Hq. reflexivity.
Qed.

(** After [receive] on a queue [pre ++ [exit_item]]: either the thread is
    out of the loop, or it goes on with the queue one item shorter. *)
Lemma receive_progress (w : World) (pre : list val) :
  q w = pre ++ [exit_item] ->
  match Process.receive w with
  | Done Return w' | Raised _ w' => shell w w'
  | Done Continue w' =>
      shell w w' /\ exists pre', pre = (hd PyNone pre) :: pre' /\ q w' = pre' ++ [exit_item]
  | Stuck _ => False
  end.
Proof.
  intros Hq. destruct pre as [| item pre'].
  - rewrite (receive_exit_only w Hq). repeat split.
  - rewrite (receive_other w item (pre' ++ [exit_item]) Hq).
    pose proof (steady_handle item (set_q (pre' ++ [exit_item]) w)) as H.
    destruct (Process.handle item (set_q (pre' ++ [exit_item]) w)) as [[|] w1 | e w1 | w1];
      try exact H; destruct H as [Hs Hq1].
    + split; [exact Hs |]. exists pre'. split; [reflexivity | exact Hq1].
    + exact Hs.
    + exact Hs.
Qed.

Lemma loop_leaves_run (pre : list val) :
  forall (fuel : nat) (w : World),
    q w = pre ++ [exit_item] ->
    length pre < fuel ->
    exists w', left_run (Process.loop fuel w) w' /\ shell w w'.
Proof.
  induction pre as [| item pre IH]; intros fuel w Hq Hfuel;
    (destruct fuel as [| fuel]; [simpl in Hfuel; lia |]);
    simpl; unfold Process.iteration, bind;
    pose proof (steady_reconcile w) as Hr;
    (destruct (Process.reconcile w) as [[] w1 | e w1 | w1]; [| | contradiction]);
    destruct Hr as [Hs1 Hq1]; rewrite Hq in Hq1.
  - (* the exit item is next *)
    rewrite (receive_exit_only w1 Hq1).
    eexists; split; [right; eexists; reflexivity |].
    eapply shell_trans; [exact Hs1 | repeat split].
  - eexists; split; [right; eexists; reflexivity |]. exact Hs1.
  - (* another item is next *)
    pose proof (receive_progress w1 (item :: pre) Hq1) as Hp.
    destruct (Process.receive w1) as [[|] w2 | e w2 | w2]; [| | | contradiction].
    + destruct Hp as (Hs2 & pre' & Hpre & Hq2). injection Hpre as <-.
      destruct (IH fuel w2 Hq2 ltac:(simpl in Hfuel; lia)) as (w3 & Hleft & Hs3).
      exists w3. split; [exact Hleft |].
      eapply shell_trans; [exact Hs1 |]. eapply shell_trans; eassumption.
    + eexists; split; [left; reflexivity |]. eapply shell_trans; eassumption.
    + eexists; split; [right; eexists; reflexivity |]. eapply shell_trans; eassumption.
  - eexists; split; [right; eexists; reflexivity |]. exact Hs1.
Qed.

Lemma resume_leaves_run (pre : list val) (fuel : nat) (w : World) :
  q w = pre ++ [exit_item] ->
  length pre <= fuel ->
  exists w', left_run (Process.resume fuel w) w' /\ shell w w'.
Proof.
  intros Hq Hfuel. unfold Process.resume, bind.
  pose proof (receive_progress w pre Hq) as Hp.
  destruct (Process.receive w) as [[|] w1 | e w1 | w1]; try contradiction.
  - destruct Hp as (Hs1 & pre' & Hpre & Hq1).
    destruct (loop_leaves_run pre' fuel w1 Hq1) as (w2 & Hleft & Hs2).
    { rewrite Hpre in Hfuel. simpl in Hfuel. lia. }
    exists w2. split; [exact Hleft | eapply shell_trans; eassumption].
  - eexists; split; [left; reflexivity | exact Hp].
  - eexists; split; [right; eexists; reflexivity | exact Hp].
Qed.

(** [join()] on the supervisor thread returns once the exit item is queued,
    wherever the thread was. *)
Lemma join_returns (pre : list val) (fuel : nat) (w : World) :
  q w = pre ++ [exit_item] ->
  length pre < fuel ->
  thread w <> NotStarted ->
  exists w' r,
    Process.join fuel w = Done tt w' /\
    thread w' = Ended r /\
    config_subscriber w' = config_subscriber w /\
    ha_event_listener w' = ha_event_listener w /\
    running_threads w' = running_threads w.
Proof.
  intros Hq Hfuel Hth. unfold Process.join.
  destruct (thread w) eqn:Et; [congruence | | |].
  - destruct (loop_leaves_run pre fuel w Hq Hfuel) as (w1 & [H | [e H]] & (_ & a & b & c & d));
      rewrite H; eexists; eexists; (split; [reflexivity |]); simpl; repeat split; assumption.
  - destruct (resume_leaves_run pre fuel w Hq ltac:(lia)) as (w1 & [H | [e H]] & (_ & a & b & c & d));
      rewrite H; eexists; eexists; (split; [reflexivity |]); simpl; repeat split; assumption.
  - exists w, exc. repeat split. exact Et.
Qed.

(** A whole pass of the loop never blocks and leaves the shell alone: it
    only takes an item off the queue. *)
Lemma iteration_keeps_shell (w : World) :
  match Process.iteration w with
  | Done _ w' | Raised _ w' => shell w w'
  | Stuck _ => False
  end.
Proof.
  unfold Process.iteration, bind.
  pose proof (steady_reconcile w) as Hr.
  destruct (Process.reconcile w) as [[] w1 | e w1 | w1]; [| exact (proj1 Hr) | exact Hr].
  destruct Hr as [Hs1 _].
  unfold Process.receive, bind, q_get.
  destruct (q w1) as [| item rest]; [exact Hs1 |].
  pose proof (steady_handle item (set_q rest w1)) as Hh.
  destruct (Process.handle item (set_q rest w1)) as [c w2 | e w2 | w2];
    [| | exact Hh]; destruct Hh as [Hs2 _];
    (eapply shell_trans; [exact Hs1 |]);
    (eapply shell_trans; [| exact Hs2]); repeat split.
Qed.

(** ** The steps of [stop()] *)

Lemma flag_ok_at_most_one (e : WaitableEvent.t) :
  flag_ok e = true -> at_most_one e.
Proof.
  destruct e as [[| c [| c' l]]]; unfold flag_ok, at_most_one; simpl; intros H.
  - now left.
  - right. apply Ascii.eqb_eq in H. now subst c.
  - discriminate H.
Qed.

Lemma stoppable_spec (w : World) :
  stoppable w = true ->
  (config_path w <> None -> config_subscriber w <> None) /\
  at_most_one (exit_flag (ha_event_listener w)) /\
  ha_thread (ha_event_listener w) <> NotStarted /\
  thread w <> NotStarted.
Proof.
  unfold stoppable. rewrite !andb_true_iff. intros [[[Hcs Hflag] Hha] Hth].
  repeat split.
  - intros Hcp Hnone. destruct (config_path w); [| congruence].
    rewrite Hnone in Hcs. discriminate Hcs.
  - now apply flag_ok_at_most_one.
  - intros E. rewrite E in Hha. discriminate Hha.
  - intros E. rewrite E in Hth. discriminate Hth.
Qed.

(** The passes of the loop keep a supervisor stoppable. *)
Lemma shell_stoppable (w w' : World) : shell w w' -> stoppable w' = stoppable w.
Proof.
  intros (a & b & c & d & e). unfold stoppable. now rewrite a, b, c, e.
Qed.

Lemma iteration_keeps_stoppable (w w' : World) (c : ctl) :
  Process.iteration w = Done c w' -> stoppable w' = stoppable w.
Proof.
  intros H. pose proof (iteration_keeps_shell w) as Hs. rewrite H in Hs.
  now apply shell_stoppable.
Qed.

(** Every supervisor that was constructed and started can be stopped. *)
Lemma init_start_stoppable
    (app : Process.App) (bg : BgFun) (path : option string) (t_read : Process.Trans)
    (w w' : World) :
  Process.__init__ app bg path t_read = Done tt w ->
  Process.start w = Done tt w' ->
  stoppable w' = true.
Proof.
  unfold Process.__init__, bind.
  destruct (Process.exists_ t_read "/tfnm:ncs-state/tfnm:ha") eqn:E;
    destruct path as [p |]; simpl; intros H;
    [discriminate H | discriminate H | |];
    injection H as <-; intros H2; vm_compute in H2; injection H2 as <-;
    reflexivity.
Qed.

Lemma ha_stop_returns (w : World) (fuel : nat) :
  at_most_one (exit_flag (ha_event_listener w)) ->
  ha_thread (ha_event_listener w) <> NotStarted ->
  0 < fuel ->
  exists r,
    HaEventListener.stop fuel w =
    Done tt
      (set_running_threads
         (remove_first HaEventListener.thread_name (running_threads w))
         (set_ha_event_listener
            {| exit_flag := {| WaitableEvent.pipe := ["1"%char] |};
               ha_thread := Ended r;
               event_socket := event_socket (ha_event_listener w) |} w)).
Proof.
  intros Hflag Hth Hfuel.
  unfold HaEventListener.stop, bind, get.
  rewrite (set_total _ Hflag).
  destruct fuel as [| fuel]; [lia |].
  destruct w as [tr rt ev nm bg cp qq cs [flag hth sock] wk ce he hm th].
  simpl in Hth.
  destruct hth as [| | | r]; [congruence | | |];
    eexists; cbn; reflexivity.
Qed.

Lemma worker_stop_returns (w : World) (p : Worker.t) :
  worker w = Some p ->
  let p' := Worker.join 1 (Worker.terminate p) in
  Process.worker_stop w =
  Done tt
    (set_trace
       (trace w
        ++ [Log INFO (MsgWorkerStopping (name w)); ProcTerminate; ProcJoin 1]
        ++ (if Worker.is_alive p'
            then [Log ERROR (MsgWorkerNotTerminated true)] else []))
       (set_worker (Some p') w)).
Proof.
  intros Hw p'. subst p'.
  destruct w as [tr rt ev nm bg cp qq cs hl wk ce he hm th].
  simpl in Hw. subst wk.
  destruct p as [a s t]; destruct a, s;
    unfold Process.worker_stop, bind, get, when, log_info, log_error, emit, modify;
    simpl; rewrite <- ?app_assoc; reflexivity.
Qed.

Lemma worker_stop_without_worker (w : World) :
  worker w = None ->
  Process.worker_stop w =
  Raised AttributeError
    (set_trace (trace w ++ [Log INFO (MsgWorkerStopping (name w))]) w).
Proof.
  intros Hw.
  destruct w as [tr rt ev nm bg cp qq cs hl wk ce he hm th].
  simpl in Hw. subst wk. reflexivity.
Qed.

Lemma stop_reaches_join (w : World) (p : Worker.t) (fuel : nat) :
  stoppable w = true ->
  worker w = Some p ->
  0 < fuel ->
  exists rl,
    Process.stop fuel w =
    (Process.join fuel;;
     del_running_thread (Process.supervisor_name (name w))) (before_join w p rl).
Proof.
  intros Hst Hw Hfuel.
  destruct (stoppable_spec w Hst) as (Hcs & Hflag & Hha & Hth).
  unfold Process.stop, before_join. unfold bind at 1. unfold get at 1.
  set (w1 := match config_path w with
             | Some _ => set_config_subscriber
                           (Process.subscriber_stop <$> config_subscriber w) w
             | None => w
             end).
  assert (H1 : (match config_path w with
                | Some _ =>
                    match config_subscriber w with
                    | Some s => modify (set_config_subscriber
                                          (Some (Process.subscriber_stop s)))
                    | None => raise AttributeError
                    end
                | None => ret tt
                end) w = Done tt w1).
  { subst w1. destruct (config_path w) as [path |]; [| reflexivity].
    destruct (config_subscriber w) as [s |]; [reflexivity |].
    exfalso. now apply Hcs. }
  unfold bind at 1. rewrite H1.
  assert (Hsame : ha_event_listener w1 = ha_event_listener w /\ worker w1 = worker w).
  { subst w1. destruct (config_path w); repeat split. }
  destruct Hsame as (Hl1 & Hw1).
  destruct (ha_stop_returns w1 fuel) as (rl & H2);
    [now rewrite Hl1 | now rewrite Hl1 | exact Hfuel |].
  exists rl.
  unfold bind at 1. rewrite H2.
  set (w2 := set_running_threads _ (set_ha_event_listener _ w1)).
  unfold bind at 1.
  rewrite (worker_stop_returns w2 p) by (subst w2; simpl; congruence).
  reflexivity.
Qed.

(** [stop()] with a worker handle in place returns, whatever waits in the
    queue and wherever the supervisor thread is. *)
Lemma stop_returns (w : World) (p : Worker.t) (fuel : nat) :
  stoppable w = true ->
  worker w = Some p ->
  length (q w) < fuel ->
  exists w' r rl,
    Process.stop fuel w = Done tt w' /\
    thread w' = Ended r /\
    ha_thread (ha_event_listener w') = Ended rl /\
    WaitableEvent.readable (exit_flag (ha_event_listener w')) = true /\
    (config_path w <> None ->
     exists s, config_subscriber w' = Some s /\ sub_running s = false) /\
    running_threads w' =
      remove_first (Process.supervisor_name (name w))
        (remove_first HaEventListener.thread_name (running_threads w)).
Proof.
  intros Hst Hw Hfuel.
  destruct (stop_reaches_join w p fuel Hst Hw ltac:(lia)) as (rl & ->).
  destruct (stoppable_spec w Hst) as (Hcs & Hflag & Hha & Hth).
  assert (Hfields : q (before_join w p rl) = q w ++ [exit_item] /\
                    thread (before_join w p rl) = thread w).
  { unfold before_join. destruct (config_path w); split; reflexivity. }
  destruct Hfields as (Hq4 & Ht4).
  destruct (join_returns (q w) fuel (before_join w p rl))
    as (w5 & r & H5 & Hr5 & Hc5 & Hl5 & Hrt5);
    [exact Hq4 | exact Hfuel | now rewrite Ht4 |].
  unfold bind at 1. rewrite H5.
  exists (set_running_threads
            (remove_first (Process.supervisor_name (name w)) (running_threads w5)) w5),
    r, rl.
  split; [reflexivity |].
  simpl. rewrite Hr5, Hl5, Hc5, Hrt5. unfold before_join.
  destruct (config_path w) as [path |]; simpl; repeat split.
  - intros _. destruct (config_subscriber w) as [s |]; [| exfalso; now apply Hcs].
    eexists; split; reflexivity.
  - intros Hcp. congruence.
Qed.



(** ** Events in the supervisor's loop *)

Lemma handle_enabled (w : World) (v : val) :
  Process.handle (PyTuple [PyStr "enabled"; v]) w =
  Done Continue
    (set_config_enabled v
       (set_trace (trace w ++ [Log INFO (MsgGotEvent (PyStr "enabled") v)]) w)).
Proof. reflexivity. Qed.

(** An item [('ha-mode', role)] is logged and dropped: no branch of the
    loop looks at it. *)
Lemma handle_ha_mode (w : World) (role : string) :
  Process.handle (ha_mode_item role) w =
  Done Continue
    (set_trace (trace w ++ [Log INFO (MsgGotEvent (PyStr "ha-mode") (PyStr role))]) w).
Proof. reflexivity. Qed.

(** C2 (as the code behaves): with a running worker and HA not enabled at
    construction, the supervisor dequeues [('enabled', True)] and then
    [('ha-mode', 'none')] and goes on looping on the emptied queue with
    [ha_enabled] still false and [ha_master] still unset; the worker is
    never asked to terminate and stays alive. *)
Theorem ha_none_after_enabled_keeps_worker :
  exists w',
    Process.resume 2 Scenario.enabled_then_ha_none = Stuck w' /\
    q w' = [] /\
    config_enabled w' = PyBool true /\
    ha_enabled w' = false /\
    ha_master w' = None /\
    Process.worker_is_alive w' = true /\
    ~ In ProcTerminate (trace w').
Proof.
  eexists. split; [vm_compute; reflexivity |].
  repeat split. simpl. intros H.
  repeat (destruct H as [H | H]; [discriminate H |]). exact H.
Qed.

(** C3 (as the code behaves): the item [stop()] posts is the one-element
    tuple [('exit',)], and unpacking it into [k, v] raises [ValueError];
    so the supervisor thread that dequeues it leaves [run] by that
    exception, and that is what ends the [join] of [stop()]. *)
Theorem exit_item_ends_run_by_exception :
  (forall w, Process.handle exit_item w = Raised ValueError w) /\
  exists w',
    Process.stop 1 (Scenario.supervised Scenario.obedient true) = Done tt w' /\
    thread w' = Ended (Some ValueError).
Proof.
  split; [reflexivity |].
  eexists. split; [vm_compute; reflexivity | reflexivity].
Qed.

(** ** Construction *)

(** C5 (as the code behaves): the constructor reads the leaf and the HA
    subtree; when the subtree exists it raises [NameError], because the
    mode string is bound to [ha_mode] and then looked up as [mode]; when it
    does not exist the constructor returns with [config_enabled] the boolean
    of the leaf (or true without a path), [ha_enabled] false and [ha_master]
    never assigned. *)
Theorem init_raises_when_ha_exists
    (app : Process.App) (bg : BgFun) (path : option string) (t_read : Process.Trans) :
  if Process.exists_ t_read "/tfnm:ncs-state/tfnm:ha"
  then exists w, Process.__init__ app bg path t_read = Raised NameError w
  else exists w,
      Process.__init__ app bg path t_read = Done tt w /\
      config_enabled w =
        match path with
        | Some p => PyBool (truthy (Process.get_elem t_read p))
        | None => PyBool true
        end /\
      ha_enabled w = false /\
      ha_master w = None /\
      worker w = None.
Proof.
  destruct (Process.exists_ t_read "/tfnm:ncs-state/tfnm:ha") eqn:E;
    destruct path as [p |];
    unfold Process.__init__, bind; simpl; rewrite E; simpl;
    eexists; repeat split.
Qed.

(** ** The HA listener and a payload without a role type *)

Lemma notif_type_error (n : val) (e : exn) :
  HaEventListener.notif_type n = Err e -> e = KeyError \/ e = TypeError.
Proof.
  unfold HaEventListener.notif_type, subscript.
  destruct n as [| | | | |entries]; try (intros [= <-]; now right).
  destruct (assoc "hnot" entries) as [hnot |]; [| intros [= <-]; now left].
  destruct hnot as [| | | | |inner]; try (intros [= <-]; now right).
  destruct (assoc "type" inner); [discriminate | intros [= <-]; now left].
Qed.

(** C7 (counterexample): with a payload that has no ["hnot"] entry on the
    socket, the pass of the listener's loop does not end in the next pass
    but in [KeyError]; the loop is left with nothing logged, and the
    well-formed master notification behind it is never read. *)
Lemma malformed_notification_ends_listener :
  HaEventListener.notif_type Scenario.malformed_notification = Err KeyError /\
  ~ (exists w', HaEventListener.iteration Scenario.listening = Done Continue w') /\
  exists w',
    HaEventListener.loop 3 Scenario.listening = Raised KeyError w' /\
    trace w' = trace Scenario.listening /\
    q w' = [] /\
    event_socket (ha_event_listener w') = [Scenario.master_notification].
Proof.
  split; [reflexivity |]. split.
  - intros (w' & H). vm_compute in H. discriminate H.
  - eexists. split; [vm_compute; reflexivity |]. repeat split.
Qed.

(** C7 (amended): a notification from which no role type can be extracted
    makes the listener's loop raise the lookup error ([KeyError] or
    [TypeError]) out of [run]: the payload is consumed, nothing is logged,
    nothing is put on the queue, the supervisor's HA state is as before, and
    no later notification is read. *)
Theorem malformed_notification_raises
    (w : World) (n : val) (rest : list val) (e : exn) (fuel : nat) :
  WaitableEvent.readable (exit_flag (ha_event_listener w)) = false ->
  event_socket (ha_event_listener w) = n :: rest ->
  HaEventListener.notif_type n = Err e ->
  (e = KeyError \/ e = TypeError) /\
  HaEventListener.loop (S fuel) w =
  Raised e
    (set_ha_event_listener
       (HaEventListener.set_event_socket rest (ha_event_listener w)) w).
Proof.
  intros Hflag Hsock Htype.
  split; [eapply notif_type_error; exact Htype |].
  simpl. unfold HaEventListener.iteration, bind, get.
  rewrite Hflag, Hsock. unfold HaEventListener.update, modify.
  rewrite Htype. reflexivity.
Qed.

Lemma malformed_notification_raises_witness :
  (KeyError = KeyError \/ KeyError = TypeError) /\
  HaEventListener.loop 3 Scenario.listening =
  Raised KeyError
    (set_ha_event_listener
       (HaEventListener.set_event_socket [Scenario.master_notification]
          (ha_event_listener Scenario.listening))
       Scenario.listening).
Proof.
  apply (malformed_notification_raises Scenario.listening
           Scenario.malformed_notification [Scenario.master_notification]
           KeyError 2); reflexivity.
Defined.

(** ** Stopping the worker and the supervisor *)

(** C9: with a worker in place, [worker_stop] logs, asks the process once to
    terminate, waits for it once with a timeout of one second, logs an error
    when the process is still alive, and returns; a live worker that ignores
    the request is still alive afterwards, and [stop()] returns all the
    same. *)
Theorem worker_stop_is_bounded_best_effort (w : World) (p : Worker.t) (fuel : nat) :
  stoppable w = true ->
  worker w = Some p ->
  length (q w) < fuel ->
  Process.worker_stop w =
    Done tt
      (set_trace
         (trace w
          ++ [Log INFO (MsgWorkerStopping (name w)); ProcTerminate; ProcJoin 1]
          ++ (if Worker.is_alive (Worker.join 1 (Worker.terminate p))
              then [Log ERROR (MsgWorkerNotTerminated true)] else []))
         (set_worker (Some (Worker.join 1 (Worker.terminate p))) w)) /\
  Worker.is_alive (Worker.join 1 (Worker.terminate p)) =
    Worker.alive p && Worker.stubborn p /\
  exists w', Process.stop fuel w = Done tt w'.
Proof.
  intros Hst Hw Hfuel. split; [| split].
  - exact (worker_stop_returns w p Hw).
  - destruct p as [a s t]. destruct a, s; reflexivity.
  - destruct (stop_returns w p fuel Hst Hw Hfuel) as (w' & _ & _ & H & _).
    now exists w'.
Qed.

Lemma worker_stop_is_bounded_best_effort_witness :
  Process.worker_stop (Scenario.supervised Scenario.deaf true) =
    Done tt
      (set_trace
         (trace (Scenario.supervised Scenario.deaf true)
          ++ [Log INFO (MsgWorkerStopping (name (Scenario.supervised Scenario.deaf true)));
              ProcTerminate; ProcJoin 1]
          ++ (if Worker.is_alive
                   (Worker.join 1 (Worker.terminate (Worker.start Scenario.deaf)))
              then [Log ERROR (MsgWorkerNotTerminated true)] else []))
         (set_worker
            (Some (Worker.join 1 (Worker.terminate (Worker.start Scenario.deaf))))
            (Scenario.supervised Scenario.deaf true))) /\
  Worker.is_alive (Worker.join 1 (Worker.terminate (Worker.start Scenario.deaf))) =
    Worker.alive (Worker.start Scenario.deaf)
    && Worker.stubborn (Worker.start Scenario.deaf) /\
  exists w', Process.stop 1 (Scenario.supervised Scenario.deaf true) = Done tt w'.
Proof.
  apply (worker_stop_is_bounded_best_effort
           (Scenario.supervised Scenario.deaf true) (Worker.start Scenario.deaf) 1).
  - reflexivity.
  - reflexivity.
  - simpl. lia.
Defined.

(** With no worker ever started, [stop()] raises [AttributeError] from
    [worker_stop] (there is no handle to call [terminate] on): the watchers
    are down by then, but the exit item is not posted and the supervisor
    thread is left waiting.  The loop guards the same call with
    [self.worker is not None]. *)
Lemma stop_without_worker_raises :
  worker (Scenario.supervised Scenario.obedient false) = None /\
  exists w',
    Process.stop 1 (Scenario.supervised Scenario.obedient false)
      = Raised AttributeError w' /\
    q w' = [] /\
    thread w' = Waiting.
Proof.
  split; [reflexivity |].
  eexists. split; [vm_compute; reflexivity |]. split; reflexivity.
Qed.




(** Why the last part of the statement above asks for a supervisor thread
    that waits in [q.get]: a thread that is at the top of its loop when
    [stop()] has stopped the worker finds [should_run] true and the worker
    dead, and starts a fresh worker before it dequeues the exit item. *)
Lemma stop_races_with_loop_pass :
  exists w',
    Process.stop 2 (set_thread AtLoopTop (Scenario.supervised Scenario.obedient true))
      = Done tt w' /\
    worker w' = Some (Worker.start Scenario.obedient) /\
    Process.worker_is_alive w' = true.
Proof.
  eexists. split; [vm_compute; reflexivity |]. split; reflexivity.
Qed.

(** * Further properties *)

(** ** One pass of the loop and the worker *)

Lemma should_run_decision (w : World) :
  ha_known w = true ->
  exists sr, Process.should_run w = Done sr w /\ truthy sr = decision w.
Proof.
  destruct w as [tr rt ev nm bg cp qq cs hl wk ce he hm th].
  unfold ha_known, decision, Process.should_run, bind, get. simpl.
  intros Hk. destruct (truthy ce) eqn:Ece.
  - destruct he; simpl.
    + destruct hm as [m |]; [| discriminate Hk].
      exists (PyBool m). split; reflexivity.
    + exists (PyBool true). split; reflexivity.
  - exists ce. split; [reflexivity | exact Ece].
Qed.

(** Evaluation of the setters innermost first, so that nested updates of
    the record do not multiply. *)
Ltac eval_world :=
  cbv beta iota zeta delta
    [ret bind get gets modify when raise lift log_info log_error emit
     set_trace set_running_threads set_q set_config_subscriber
     set_ha_event_listener set_worker set_config_enabled set_ha_enabled
     set_ha_master set_thread
     trace running_threads events name bg_fun config_path q config_subscriber
     ha_event_listener worker config_enabled ha_enabled ha_master thread
     Worker.start Worker.terminate Worker.join Worker.is_alive
     Worker.alive Worker.stubborn Worker.term_requested
     Process.worker_stop Process.worker_start Process.worker_is_none
     Process.worker_is_alive andb orb negb].

Ltac run_reconcile Hsr Ht :=
  unfold Process.reconcile; unfold bind at 1; rewrite Hsr;
  unfold when; rewrite ?Ht; eval_world.

Lemma reconcile_starts (w : World) (sr : val) :
  Process.should_run w = Done sr w ->
  truthy sr = true ->
  worker w = None ->
  Process.reconcile w =
  Done tt
    (set_trace
       (trace w ++ [Log INFO MsgShouldRunNotRunning;
                    Log INFO (MsgWorkerStarting (name w)); ProcStart])
       (set_worker (Some (Worker.start (bg_fun w))) w)).
Proof.
  intros Hsr Ht Hw.
  destruct w as [tr rt ev nm bg cp qq cs hl wk ce he hm th]. simpl in Hw. subst wk.
  run_reconcile Hsr Ht. rewrite <- ?app_assoc. reflexivity.
Qed.

Lemma reconcile_restarts (w : World) (sr : val) (p : Worker.t) :
  Process.should_run w = Done sr w ->
  truthy sr = true ->
  worker w = Some p ->
  Worker.alive p = false ->
  Process.reconcile w =
  Done tt
    (set_trace
       (trace w ++ [Log INFO MsgShouldRunNotRunning;
                    Log INFO (MsgWorkerStopping (name w)); ProcTerminate; ProcJoin 1;
                    Log INFO (MsgWorkerStarting (name w)); ProcStart])
       (set_worker (Some (Worker.start (bg_fun w))) w)).
Proof.
  intros Hsr Ht Hw Ha.
  destruct w as [tr rt ev nm bg cp qq cs hl wk ce he hm th]. simpl in Hw. subst wk.
  destruct p as [a s t]. simpl in Ha. subst a.
  run_reconcile Hsr Ht. rewrite <- ?app_assoc. reflexivity.
Qed.

Lemma reconcile_stops (w : World) (sr : val) (p : Worker.t) :
  Process.should_run w = Done sr w ->
  truthy sr = false ->
  worker w = Some p ->
  Worker.alive p = true ->
  Process.reconcile w =
  Done tt
    (set_trace
       (trace w ++ [Log INFO MsgRunningShouldNotRun;
                    Log INFO (MsgWorkerStopping (name w)); ProcTerminate; ProcJoin 1]
        ++ (if Worker.stubborn p
            then [Log ERROR (MsgWorkerNotTerminated true)] else []))
       (set_worker (Some (Worker.join 1 (Worker.terminate p))) w)).
Proof.
  intros Hsr Ht Hw Ha.
  destruct w as [tr rt ev nm bg cp qq cs hl wk ce he hm th]. simpl in Hw. subst wk.
  destruct p as [a s t]. simpl in Ha. subst a.
  destruct s; run_reconcile Hsr Ht; rewrite <- ?app_assoc; reflexivity.
Qed.

Lemma reconcile_rests (w : World) (sr : val) :
  Process.should_run w = Done sr w ->
  Process.worker_is_alive w = truthy sr ->
  Process.reconcile w = Done tt w.
Proof.
  intros Hsr Ha.
  destruct w as [tr rt ev nm bg cp qq cs hl wk ce he hm th].
  unfold Process.worker_is_alive, Worker.is_alive in Ha. simpl in Ha.
  destruct wk as [[a s t] |]; simpl in Ha; symmetry in Ha;
    [destruct a |]; run_reconcile Hsr Ha; reflexivity.
Qed.



Lemma decision_after_worker_change (w : World) (tr : list effect) (x : option Worker.t) :
  decision (set_trace tr (set_worker x w)) = decision w /\
  ha_known (set_trace tr (set_worker x w)) = ha_known w /\
  q (set_trace tr (set_worker x w)) = q w.
Proof. repeat split. Qed.

(** After a pass over [reconcile], a worker that gives way to termination
    requests is alive exactly when the decision says so. *)
Lemma reconcile_in_line (w : World) :
  ha_known w = true ->
  obedient_worker w = true ->
  exists w',
    Process.reconcile w = Done tt w' /\
    Process.worker_is_alive w' = decision w /\
    decision w' = decision w /\
    ha_known w' = ha_known w /\
    config_enabled w' = config_enabled w /\
    q w' = q w.
Proof.
  intros Hk Hob.
  destruct (should_run_decision w Hk) as (sr & Hsr & Ht).
  unfold obedient_worker in Hob.
  assert (Hrest : Process.worker_is_alive w = truthy sr ->
                  exists w',
                    Process.reconcile w = Done tt w' /\
                    Process.worker_is_alive w' = decision w /\
                    decision w' = decision w /\
                    ha_known w' = ha_known w /\
                    config_enabled w' = config_enabled w /\
                    q w' = q w).
  { intros Ha. exists w. rewrite (reconcile_rests w sr Hsr Ha).
    split; [reflexivity |]. split; [congruence | repeat split]. }
  destruct (truthy sr) eqn:Etr; destruct (worker w) as [p |] eqn:Hw.
  - destruct (Worker.alive p) eqn:Ha.
    + apply Hrest. unfold Process.worker_is_alive. rewrite Hw. exact Ha.
    + rewrite (reconcile_restarts w sr p Hsr Etr Hw Ha).
      eexists. split; [reflexivity |].
      split; [rewrite <- Ht; reflexivity | repeat split].
  - rewrite (reconcile_starts w sr Hsr Etr Hw).
    eexists. split; [reflexivity |].
    split; [rewrite <- Ht; reflexivity | repeat split].
  - destruct (Worker.alive p) eqn:Ha.
    + rewrite (reconcile_stops w sr p Hsr Etr Hw Ha).
      eexists. split; [reflexivity |]. split; [| repeat split].
      rewrite <- Ht. unfold Process.worker_is_alive, Worker.is_alive. simpl.
      rewrite Ha. destruct (Worker.stubborn p); [discriminate Hob | reflexivity].
    + apply Hrest. unfold Process.worker_is_alive. rewrite Hw. exact Ha.
  - apply Hrest. unfold Process.worker_is_alive. rewrite Hw. reflexivity.
Qed.

Lemma reconcile_rests_in_line (w : World) :
  ha_known w = true ->
  Process.worker_is_alive w = decision w ->
  Process.reconcile w = Done tt w.
Proof.
  intros Hk Ha. destruct (should_run_decision w Hk) as (sr & Hsr & Ht).
  apply (reconcile_rests w sr Hsr). now rewrite Ht.
Qed.



Lemma loop_pass (fuel : nat) (w : World) :
  Process.loop (S fuel) w =
  match Process.iteration w with
  | Done Continue w' => Process.loop fuel w'
  | Done Return w' => Done tt w'
  | Raised e w' => Raised e w'
  | Stuck w' => Stuck w'
  end.
Proof.
  cbn [Process.loop]. unfold bind.
  destruct (Process.iteration w) as [[|] w' | e w' | w']; reflexivity.
Qed.

Lemma loop_idles (w : World) (fuel : nat) :
  ha_known w = true ->
  Process.worker_is_alive w = decision w ->
  q w = [] ->
  Process.loop fuel w = Stuck w.
Proof.
  intros Hk Ha Hq. induction fuel as [| fuel IH]; [reflexivity |].
  simpl. unfold Process.iteration, bind.
  rewrite (reconcile_rests_in_line w Hk Ha).
  unfold Process.receive, bind, q_get. rewrite Hq. exact IH.
Qed.

(** X2: a supervisor whose worker is in line with the decision and whose
    queue is empty is quiescent: however many timed-out passes of the loop
    it makes, nothing changes, not even the log, and [run] does not
    return. *)
Theorem idle_passes_change_nothing (w : World) (fuel : nat) :
  ha_known w = true ->
  Process.worker_is_alive w = decision w ->
  q w = [] ->
  Process.loop fuel w = Stuck w.
Proof.
  intros Hk Ha Hq.
  destruct (should_run_decision w Hk) as (sr & Hsr & Ht).
  assert (Hr : Process.reconcile w = Done tt w)
    by (apply (reconcile_rests w sr Hsr); now rewrite Ht).
  induction fuel as [| fuel IH]; [reflexivity |].
  rewrite loop_pass. unfold Process.iteration, bind. rewrite Hr.
  unfold Process.receive, bind, q_get. rewrite Hq. exact IH.
Qed.

Lemma idle_passes_change_nothing_witness :
  Process.loop 7 (Scenario.supervised Scenario.obedient true)
  = Stuck (Scenario.supervised Scenario.obedient true).
Proof.
  apply (idle_passes_change_nothing (Scenario.supervised Scenario.obedient true) 7);
    reflexivity.
Defined.

Lemma should_run_falsy (w : World) :
  decision w = false ->
  ha_known w = true ->
  exists sr, Process.should_run w = Done sr w /\ truthy sr = false.
Proof.
  intros Hd Hk. destruct (should_run_decision w Hk) as (sr & Hsr & Ht).
  exists sr. split; [exact Hsr | congruence].
Qed.

(** X3: a live worker that ignores termination while the decision is
    against it is asked again on every pass of the loop: with an empty
    queue, [n + 1] passes record [n + 1] times the stop message, one
    [terminate()], one [join(timeout=1)] and the error message, and leave
    the worker alive. *)
Theorem deaf_worker_is_asked_on_every_pass (n : nat) :
  forall (w : World) (p : Worker.t),
    ha_known w = true ->
    decision w = false ->
    worker w = Some p ->
    Worker.alive p = true ->
    Worker.stubborn p = true ->
    q w = [] ->
    Process.loop (S n) w =
    Stuck (set_trace (trace w ++ concat (repeat (futile_stop (name w)) (S n)))
             (set_worker (Some (Worker.terminate p)) w)).
Proof.
  induction n as [| n IH]; intros w p Hk Hd Hw Ha Hs Hq;
    destruct (should_run_falsy w Hd Hk) as (sr & Hsr & Ht);
    rewrite loop_pass; unfold Process.iteration; unfold bind at 1;
    rewrite (reconcile_stops w sr p Hsr Ht Hw Ha), Hs;
    unfold Process.receive, bind, q_get; cbn [q set_trace set_worker]; rewrite Hq.
  - destruct w as [tr rt ev nm bg cp qq cs hl wk ce he hm th].
    destruct p as [a s t]. simpl in Ha, Hs. subst a s.
    unfold futile_stop. eval_world. cbn [concat repeat]. rewrite app_nil_r.
    reflexivity.
  - unfold ret.
    rewrite (IH _ (Worker.join 1 (Worker.terminate p))); try reflexivity.
    + destruct w as [tr rt ev nm bg cp qq cs hl wk ce he hm th].
      destruct p as [a s t]. simpl in Ha, Hs. subst a s.
      unfold futile_stop. eval_world.
      change (concat (repeat ?b (S (S n)))) with (b ++ concat (repeat b (S n))).
      cbn [app]. rewrite <- ?app_assoc. reflexivity.
    + exact Hk.
    + exact Hd.
    + destruct p as [a s t]. simpl in Ha, Hs. subst a s. reflexivity.
    + exact Hs.
    + exact Hq.
Qed.

Lemma deaf_worker_is_asked_on_every_pass_witness :
  Process.loop 3 (set_config_enabled (PyBool false) (Scenario.supervised Scenario.deaf true))
  = Stuck
      (set_trace
         (trace (set_config_enabled (PyBool false) (Scenario.supervised Scenario.deaf true))
          ++ concat (repeat (futile_stop
                               (name (set_config_enabled (PyBool false)
                                        (Scenario.supervised Scenario.deaf true)))) 3))
         (set_worker (Some (Worker.terminate (Worker.start Scenario.deaf)))
            (set_config_enabled (PyBool false) (Scenario.supervised Scenario.deaf true)))).
Proof.
  apply (deaf_worker_is_asked_on_every_pass 2
           (set_config_enabled (PyBool false) (Scenario.supervised Scenario.deaf true))
           (Worker.start Scenario.deaf)); reflexivity.
Defined.

(** X12: when the decision is to run and no live worker is tracked, one
    pass starts a fresh worker; a stale handle (a worker that has died) is
    first sent [terminate()] and [join(timeout=1)], while with no handle at
    all no such call is made. *)
Theorem reconcile_replaces_dead_worker (w : World) :
  ha_known w = true ->
  decision w = true ->
  Process.worker_is_alive w = false ->
  Process.reconcile w =
  Done tt
    (set_trace
       (trace w
        ++ [Log INFO MsgShouldRunNotRunning]
        ++ (if Process.worker_is_none w then []
            else [Log INFO (MsgWorkerStopping (name w)); ProcTerminate; ProcJoin 1])
        ++ [Log INFO (MsgWorkerStarting (name w)); ProcStart])
       (set_worker (Some (Worker.start (bg_fun w))) w)).
Proof.
  intros Hk Hd Ha.
  destruct (should_run_decision w Hk) as (sr & Hsr & Ht). rewrite Hd in Ht.
  unfold Process.worker_is_alive in Ha. unfold Process.worker_is_none.
  destruct (worker w) as [p |] eqn:Hw.
  - rewrite (reconcile_restarts w sr p Hsr Ht Hw Ha). reflexivity.
  - rewrite (reconcile_starts w sr Hsr Ht Hw). reflexivity.
Qed.

Lemma reconcile_replaces_dead_worker_witness :
  Process.reconcile (set_worker None (Scenario.supervised Scenario.obedient true)) =
  Done tt
    (set_trace
       (trace (set_worker None (Scenario.supervised Scenario.obedient true))
        ++ [Log INFO MsgShouldRunNotRunning]
        ++ (if Process.worker_is_none
                 (set_worker None (Scenario.supervised Scenario.obedient true))
            then []
            else [Log INFO (MsgWorkerStopping
                              (name (set_worker None
                                       (Scenario.supervised Scenario.obedient true))));
                  ProcTerminate; ProcJoin 1])
        ++ [Log INFO (MsgWorkerStarting
                        (name (set_worker None
                                 (Scenario.supervised Scenario.obedient true))));
            ProcStart])
       (set_worker
          (Some (Worker.start
                   (bg_fun (set_worker None (Scenario.supervised Scenario.obedient true)))))
          (set_worker None (Scenario.supervised Scenario.obedient true)))).
Proof.
  apply (reconcile_replaces_dead_worker
           (set_worker None (Scenario.supervised Scenario.obedient true)));
    reflexivity.
Defined.

(** X13: the first half of a loop pass never blocks, and it has exactly one
    way to fail: [AttributeError] on reading [ha_master], with nothing done,
    when the configuration is enabled and HA is enabled but [ha_master] was
    never assigned.  In particular it never calls [worker_stop] without a
    worker handle. *)
Theorem reconcile_fails_only_on_unset_ha_master (w : World) :
  match Process.reconcile w with
  | Done _ _ => ha_known w = true \/ truthy (config_enabled w) = false
  | Raised e w' =>
      e = AttributeError /\ w' = w /\
      ha_known w = false /\ truthy (config_enabled w) = true
  | Stuck _ => False
  end.
Proof.
  assert (Hdone : forall sr, Process.should_run w = Done sr w ->
                             exists w', Process.reconcile w = Done tt w').
  { intros sr Hsr.
    destruct (truthy sr) eqn:Etr; destruct (worker w) as [p |] eqn:Hw;
      try destruct (Worker.alive p) eqn:Ha.
    - exists w. apply (reconcile_rests w sr Hsr).
      unfold Process.worker_is_alive. rewrite Hw, Etr. exact Ha.
    - eexists. apply (reconcile_restarts w sr p Hsr Etr Hw Ha).
    - eexists. apply (reconcile_starts w sr Hsr Etr Hw).
    - eexists. apply (reconcile_stops w sr p Hsr Etr Hw Ha).
    - exists w. apply (reconcile_rests w sr Hsr).
      unfold Process.worker_is_alive. rewrite Hw, Etr. exact Ha.
    - exists w. apply (reconcile_rests w sr Hsr).
      unfold Process.worker_is_alive. rewrite Hw, Etr. reflexivity. }
  destruct (ha_known w) eqn:Hk.
  - destruct (should_run_decision w Hk) as (sr & Hsr & _).
    destruct (Hdone sr Hsr) as (w' & ->). now left.
  - destruct (truthy (config_enabled w)) eqn:Ece.
    + assert (Hsr : Process.should_run w = Raised AttributeError w).
      { destruct w as [tr rt ev nm bg cp qq cs hl wk ce he hm th].
        unfold ha_known in Hk. simpl in Hk, Ece.
        destruct hm as [m |]; [discriminate Hk |]. destruct he; [| discriminate Hk].
        unfold Process.should_run, bind, get. simpl. rewrite Ece. reflexivity. }
      unfold Process.reconcile. unfold bind at 1. rewrite Hsr. repeat split.
    + assert (Hsr : Process.should_run w = Done (config_enabled w) w).
      { unfold Process.should_run, bind, get. rewrite Ece. reflexivity. }
      destruct (Hdone _ Hsr) as (w' & ->). now right.
Qed.

(** ** Events and the worker *)

(** X4: an item [('enabled', b)] at the head of the queue takes effect in
    the pass that follows: the supervisor stores [b], and after the next
    [reconcile] a worker that gives way to termination requests is alive
    exactly when [b and (not ha_enabled or ha_master)]; the rest of the
    queue is untouched. *)
Theorem enabled_event_takes_effect (w : World) (b : bool) (rest : list val) :
  q w = enabled_item b :: rest ->
  ha_known w = true ->
  obedient_worker w = true ->
  exists w1 w2,
    Process.receive w = Done Continue w1 /\
    config_enabled w1 = PyBool b /\
    Process.reconcile w1 = Done tt w2 /\
    Process.worker_is_alive w2 =
      b && (negb (ha_enabled w) || match ha_master w with Some m => m | None => false end) /\
    q w2 = rest.
Proof.
  intros Hq Hk Hob.
  rewrite (receive_other w _ rest Hq). unfold enabled_item. rewrite handle_enabled.
  eexists. 
  destruct (reconcile_in_line
              (set_config_enabled (PyBool b)
                 (set_trace (trace (set_q rest w)
                             ++ [Log INFO (MsgGotEvent (PyStr "enabled") (PyBool b))])
                    (set_q rest w))))
    as (w2 & Hr & Ha & _ & _ & _ & Hq2).
  { exact Hk. }
  { exact Hob. }
  exists w2. split; [reflexivity |]. split; [reflexivity |].
  split; [exact Hr |]. split; [exact Ha | exact Hq2].
Qed.

Lemma enabled_event_takes_effect_witness :
  exists w1 w2,
    Process.receive (set_q [enabled_item false] (Scenario.supervised Scenario.obedient true))
      = Done Continue w1 /\
    config_enabled w1 = PyBool false /\
    Process.reconcile w1 = Done tt w2 /\
    Process.worker_is_alive w2 =
      false
      && (negb (ha_enabled (set_q [enabled_item false]
                              (Scenario.supervised Scenario.obedient true)))
          || match ha_master (set_q [enabled_item false]
                                (Scenario.supervised Scenario.obedient true)) with
             | Some m => m
             | None => false
             end) /\
    q w2 = [].
Proof.
  apply (enabled_event_takes_effect
           (set_q [enabled_item false] (Scenario.supervised Scenario.obedient true))
           false []); reflexivity.
Defined.

(** X5: a queue item that is a tuple of any length other than two ends the
    supervisor thread: unpacking it raises [ValueError] before anything is
    logged, the rest of the queue stays unread, and the worker is left as
    it was, running without a supervisor. *)
Theorem odd_sized_item_ends_supervisor
    (w : World) (items rest : list val) (fuel : nat) :
  length items <> 2 ->
  q w = PyTuple items :: rest ->
  thread w = Waiting ->
  Process.join fuel w =
  Done tt (set_thread (Ended (Some ValueError)) (set_q rest w)).
Proof.
  intros Hlen Hq Hth. unfold Process.join. rewrite Hth.
  unfold Process.resume. unfold bind at 1.
  rewrite (receive_other w _ rest Hq).
  unfold Process.handle. unfold bind at 1.
  assert (Hun : unpack2 (PyTuple items) = Err ValueError).
  { destruct items as [| a [| b [| c l]]]; try reflexivity. now contradiction Hlen. }
  rewrite Hun. reflexivity.
Qed.

Lemma odd_sized_item_ends_supervisor_witness :
  Process.join 1
    (set_q [PyTuple [PyStr "enabled"; PyBool true; PyNone]; enabled_item false]
       (Scenario.supervised Scenario.obedient true)) =
  Done tt
    (set_thread (Ended (Some ValueError))
       (set_q [enabled_item false]
          (set_q [PyTuple [PyStr "enabled"; PyBool true; PyNone]; enabled_item false]
             (Scenario.supervised Scenario.obedient true)))).
Proof.
  apply (odd_sized_item_ends_supervisor
           (set_q [PyTuple [PyStr "enabled"; PyBool true; PyNone]; enabled_item false]
              (Scenario.supervised Scenario.obedient true))
           [PyStr "enabled"; PyBool true; PyNone] [enabled_item false] 1).
  - simpl. lia.
  - reflexivity.
  - reflexivity.
Defined.

Lemma commit_reported (self : ConfigSubscriber.t)
    (changes : list ConfigSubscriber.change) (q0 : list val) :
  ConfigSubscriber.commit self changes q0 = Ok (q0 ++ [enabled_item (reported changes)]).
Proof.
  unfold ConfigSubscriber.commit, ConfigSubscriber.should_post_iterate,
    ConfigSubscriber.post_iterate, reported.
  rewrite diff_iterate_enabled.
  destruct (last (map ConfigSubscriber.newval changes)); reflexivity.
Qed.

(** X6: what the subscriber puts on the queue for a commit is always an
    item the supervisor accepts: dequeued by a waiting supervisor it raises
    nothing, is logged, and sets [config_enabled] to the boolean of the
    value recorded last in the commit (false when nothing was recorded),
    whatever the keypaths, operations and old values of the changes. *)
Theorem subscriber_item_sets_config_enabled
    (self : ConfigSubscriber.t) (changes : list ConfigSubscriber.change) (w : World) :
  exists q1,
    ConfigSubscriber.commit self changes [] = Ok q1 /\
    Process.receive (set_q q1 w) =
    Done Continue
      (set_config_enabled (PyBool (reported changes))
         (set_trace
            (trace w ++ [Log INFO (MsgGotEvent (PyStr "enabled")
                                     (PyBool (reported changes)))])
            (set_q [] w))).
Proof.
  exists [enabled_item (reported changes)].
  split; [apply commit_reported |].
  rewrite (receive_other _ (enabled_item (reported changes)) []); reflexivity.
Qed.

(** ** The HA listener *)

Lemma listener_pass (w : World) (n : val) (rest : list val) (t : val) :
  WaitableEvent.readable (exit_flag (ha_event_listener w)) = false ->
  event_socket (ha_event_listener w) = n :: rest ->
  HaEventListener.notif_type n = Ok t ->
  HaEventListener.iteration w =
  Done Continue
    (set_q (q w ++ emitted (events w) n)
       (set_ha_event_listener
          (HaEventListener.set_event_socket rest (ha_event_listener w)) w)).
Proof.
  intros Hflag Hsock Ht.
  unfold HaEventListener.iteration, emitted. unfold bind at 1. unfold get at 1.
  rewrite Hflag, Hsock, Ht.
  destruct w as [tr rt ev nm bg cp qq cs hl wk ce he hm th].
  unfold HaEventListener.update, q_put, bind, modify, lift, ret. cbn [events].
  destruct (eq_int t (HA_INFO_IS_MASTER ev)); [reflexivity |].
  destruct (eq_int t (HA_INFO_IS_NONE ev)); [reflexivity |].
  cbn. rewrite app_nil_r. reflexivity.
Qed.

(** X7: with its exit flag clear, the listener reads the well-formed
    notifications on its socket in order and then blocks in [select]; the
    queue grows by exactly one [('ha-mode', 'master')] for each
    notification of type [HA_INFO_IS_MASTER], one [('ha-mode', 'none')] for
    each of type [HA_INFO_IS_NONE], in the order of arrival, and by nothing
    for any other type; nothing is logged. *)
Theorem listener_emits_in_order (notifs : list val) :
  forall (w : World) (fuel : nat),
    WaitableEvent.readable (exit_flag (ha_event_listener w)) = false ->
    event_socket (ha_event_listener w) = notifs ->
    forallb well_formed notifs = true ->
    length notifs < fuel ->
    HaEventListener.loop fuel w =
    Stuck
      (set_q (q w ++ concat (map (emitted (events w)) notifs))
         (set_ha_event_listener
            (HaEventListener.set_event_socket [] (ha_event_listener w)) w)).
Proof.
  induction notifs as [| n rest IH]; intros w fuel Hflag Hsock Hwf Hfuel;
    (destruct fuel as [| fuel]; [simpl in Hfuel; lia |]).
  - cbn [HaEventListener.loop]. unfold bind at 1.
    unfold HaEventListener.iteration. unfold bind at 1. unfold get at 1.
    rewrite Hflag, Hsock. unfold block.
    destruct w as [tr rt ev nm bg cp qq cs [flag hth sock] wk ce he hm th].
    simpl in Hsock. subst sock. cbn. rewrite app_nil_r. reflexivity.
  - cbn [forallb] in Hwf. apply andb_true_iff in Hwf. destruct Hwf as [Hn Hrest].
    unfold well_formed in Hn.
    destruct (HaEventListener.notif_type n) as [t |] eqn:Ht; [| discriminate Hn].
    cbn [HaEventListener.loop]. unfold bind at 1.
    rewrite (listener_pass w n rest t Hflag Hsock Ht).
    rewrite IH; try reflexivity.
    + destruct w as [tr rt ev nm bg cp qq cs [flag hth sock] wk ce he hm th].
      cbn. rewrite <- app_assoc. reflexivity.
    + exact Hflag.
    + exact Hrest.
    + simpl in Hfuel. lia.
Qed.

Lemma listener_emits_in_order_witness :
  HaEventListener.loop 3
    (set_ha_event_listener
       (HaEventListener.set_event_socket
          [Scenario.master_notification; PyDict [("hnot", PyDict [("type", PyInt 6)])]]
          (ha_event_listener (Scenario.supervised Scenario.obedient true)))
       (Scenario.supervised Scenario.obedient true)) =
  Stuck
    (set_q
       (q (set_ha_event_listener
             (HaEventListener.set_event_socket
                [Scenario.master_notification;
                 PyDict [("hnot", PyDict [("type", PyInt 6)])]]
                (ha_event_listener (Scenario.supervised Scenario.obedient true)))
             (Scenario.supervised Scenario.obedient true))
        ++ concat
             (map (emitted
                     (events
                        (set_ha_event_listener
                           (HaEventListener.set_event_socket
                              [Scenario.master_notification;
                               PyDict [("hnot", PyDict [("type", PyInt 6)])]]
                              (ha_event_listener
                                 (Scenario.supervised Scenario.obedient true)))
                           (Scenario.supervised Scenario.obedient true))))
                [Scenario.master_notification;
                 PyDict [("hnot", PyDict [("type", PyInt 6)])]]))
       (set_ha_event_listener
          (HaEventListener.set_event_socket []
             (ha_event_listener
                (set_ha_event_listener
                   (HaEventListener.set_event_socket
                      [Scenario.master_notification;
                       PyDict [("hnot", PyDict [("type", PyInt 6)])]]
                      (ha_event_listener (Scenario.supervised Scenario.obedient true)))
                   (Scenario.supervised Scenario.obedient true))))
          (set_ha_event_listener
             (HaEventListener.set_event_socket
                [Scenario.master_notification;
                 PyDict [("hnot", PyDict [("type", PyInt 6)])]]
                (ha_event_listener (Scenario.supervised Scenario.obedient true)))
             (Scenario.supervised Scenario.obedient true)))).
Proof.
  apply (listener_emits_in_order
           [Scenario.master_notification; PyDict [("hnot", PyDict [("type", PyInt 6)])]]).
  - reflexivity.
  - reflexivity.
  - reflexivity.
  - simpl. lia.
Defined.

(** X8: [stop()] of the listener returns with the exit flag set and the
    thread ended, and from the moment it is called the listener reads no
    further notification and emits nothing: the socket, the queue and the
    log are as before.  A second [stop()] returns as well. *)
Theorem listener_stop_emits_nothing (w : World) (fuel : nat) :
  flag_ok (exit_flag (ha_event_listener w)) = true ->
  started (ha_thread (ha_event_listener w)) = true ->
  0 < fuel ->
  exists w' r,
    HaEventListener.stop fuel w = Done tt w' /\
    ha_thread (ha_event_listener w') = Ended r /\
    WaitableEvent.readable (exit_flag (ha_event_listener w')) = true /\
    event_socket (ha_event_listener w') = event_socket (ha_event_listener w) /\
    q w' = q w /\
    trace w' = trace w /\
    exists w'', HaEventListener.stop fuel w' = Done tt w'' /\
                ha_event_listener w'' = ha_event_listener w'.
Proof.
  intros Hflag Hst Hfuel.
  destruct (ha_stop_returns w fuel) as (r & H);
    [now apply flag_ok_at_most_one
    | intros E; rewrite E in Hst; discriminate Hst
    | exact Hfuel |].
  eexists. exists r. split; [exact H |].
  do 5 (split; [reflexivity |]).
  match type of H with _ = Done _ ?x => set (w1 := x) end.
  destruct (ha_stop_returns w1 fuel) as (r' & H');
    [now right | discriminate | exact Hfuel |].
  eexists. split; [exact H' |].
  destruct fuel as [| fuel]; [lia |].
  unfold HaEventListener.stop, bind, get in H'.
  subst w1. cbn in H'. injection H' as H'. rewrite <- H'. reflexivity.
Qed.

Lemma listener_stop_emits_nothing_witness :
  exists w' r,
    HaEventListener.stop 1 Scenario.listening = Done tt w' /\
    ha_thread (ha_event_listener w') = Ended r /\
    WaitableEvent.readable (exit_flag (ha_event_listener w')) = true /\
    event_socket (ha_event_listener w')
      = event_socket (ha_event_listener Scenario.listening) /\
    q w' = q Scenario.listening /\
    trace w' = trace Scenario.listening /\
    exists w'', HaEventListener.stop 1 w' = Done tt w'' /\
                ha_event_listener w'' = ha_event_listener w'.
Proof.
  apply (listener_stop_emits_nothing Scenario.listening 1).
  - reflexivity.
  - reflexivity.
  - lia.
Defined.

(** ** [stop()] at the edges *)

(** X9: [stop()] on a supervisor whose thread has already left [run] (a
    second [stop()], say) returns too: the worker is asked to terminate and
    waited for once more, and the exit item it posts stays in the queue,
    since nobody is left to read it. *)
Theorem stop_after_run_has_ended
    (w : World) (p : Worker.t) (r : option exn) (fuel : nat) :
  stoppable w = true ->
  worker w = Some p ->
  thread w = Ended r ->
  0 < fuel ->
  exists w',
    Process.stop fuel w = Done tt w' /\
    q w' = q w ++ [exit_item] /\
    thread w' = Ended r /\
    worker w' = Some (Worker.join 1 (Worker.terminate p)) /\
    trace w' =
      trace w
      ++ [Log INFO (MsgWorkerStopping (name w)); ProcTerminate; ProcJoin 1]
      ++ (if Worker.is_alive (Worker.join 1 (Worker.terminate p))
          then [Log ERROR (MsgWorkerNotTerminated true)] else []).
Proof.
  intros Hst Hw Hth Hfuel.
  destruct (stop_reaches_join w p fuel Hst Hw Hfuel) as (rl & ->).
  assert (Ht4 : thread (before_join w p rl) = Ended r).
  { unfold before_join. destruct (config_path w); simpl; exact Hth. }
  unfold bind at 1. unfold Process.join. rewrite Ht4.
  eexists. split; [reflexivity |].
  unfold before_join. destruct (config_path w); simpl; repeat split; exact Hth.
Qed.

Lemma stop_after_run_has_ended_witness :
  exists w',
    Process.stop 1 (set_thread (Ended (Some ValueError))
                      (Scenario.supervised Scenario.obedient true)) = Done tt w' /\
    q w' = q (set_thread (Ended (Some ValueError))
                (Scenario.supervised Scenario.obedient true)) ++ [exit_item] /\
    thread w' = Ended (Some ValueError) /\
    worker w' = Some (Worker.join 1 (Worker.terminate (Worker.start Scenario.obedient))) /\
    trace w' =
      trace (set_thread (Ended (Some ValueError))
               (Scenario.supervised Scenario.obedient true))
      ++ [Log INFO (MsgWorkerStopping
                      (name (set_thread (Ended (Some ValueError))
                               (Scenario.supervised Scenario.obedient true))));
          ProcTerminate; ProcJoin 1]
      ++ (if Worker.is_alive
               (Worker.join 1 (Worker.terminate (Worker.start Scenario.obedient)))
          then [Log ERROR (MsgWorkerNotTerminated true)] else []).
Proof.
  apply (stop_after_run_has_ended
           (set_thread (Ended (Some ValueError))
              (Scenario.supervised Scenario.obedient true))
           (Worker.start Scenario.obedient) (Some ValueError) 1).
  - reflexivity.
  - reflexivity.
  - reflexivity.
  - lia.
Defined.

(** X10: on any supervisor that tracks no worker (none was ever started),
    [stop()] raises [AttributeError] from [worker_stop], after it has
    stopped the subscriber and the listener: the exit item is not posted,
    the supervisor thread is not joined and stays where it was, and it
    stays on the registry. *)
Theorem stop_without_worker_fails (w : World) (fuel : nat) :
  stoppable w = true ->
  worker w = None ->
  0 < fuel ->
  exists w' rl,
    Process.stop fuel w = Raised AttributeError w' /\
    q w' = q w /\
    thread w' = thread w /\
    worker w' = None /\
    ha_thread (ha_event_listener w') = Ended rl /\
    (config_path w <> None ->
     exists s, config_subscriber w' = Some s /\ sub_running s = false) /\
    running_threads w' =
      remove_first HaEventListener.thread_name (running_threads w) /\
    trace w' = trace w ++ [Log INFO (MsgWorkerStopping (name w))].
Proof.
  intros Hst Hw Hfuel.
  destruct (stoppable_spec w Hst) as (Hcs & Hflag & Hha & Hth).
  unfold Process.stop. unfold bind at 1. unfold get at 1.
  set (w1 := match config_path w with
             | Some _ => set_config_subscriber
                           (Process.subscriber_stop <$> config_subscriber w) w
             | None => w
             end).
  assert (H1 : (match config_path w with
                | Some _ =>
                    match config_subscriber w with
                    | Some s => modify (set_config_subscriber
                                          (Some (Process.subscriber_stop s)))
                    | None => raise AttributeError
                    end
                | None => ret tt
                end) w = Done tt w1).
  { subst w1. destruct (config_path w) as [path |]; [| reflexivity].
    destruct (config_subscriber w) as [s |]; [reflexivity |].
    exfalso. now apply Hcs. }
  unfold bind at 1. rewrite H1.
  assert (Hl1 : ha_event_listener w1 = ha_event_listener w).
  { subst w1. destruct (config_path w); reflexivity. }
  destruct (ha_stop_returns w1 fuel) as (rl & H2);
    [now rewrite Hl1 | now rewrite Hl1 | exact Hfuel |].
  unfold bind at 1. rewrite H2.
  set (w2 := set_running_threads _ (set_ha_event_listener _ w1)).
  unfold bind at 1.
  rewrite (worker_stop_without_worker w2)
    by (subst w2 w1; destruct (config_path w); simpl; exact Hw).
  eexists. exists rl. split; [reflexivity |].
  subst w2 w1. destruct (config_path w) as [path |]; simpl; repeat split;
    try assumption; try congruence.
  intros _. destruct (config_subscriber w) as [s |]; [| exfalso; now apply Hcs].
  eexists; split; reflexivity.
Qed.

Lemma stop_without_worker_fails_witness :
  exists w' rl,
    Process.stop 1 (Scenario.supervised Scenario.obedient false)
      = Raised AttributeError w' /\
    q w' = q (Scenario.supervised Scenario.obedient false) /\
    thread w' = thread (Scenario.supervised Scenario.obedient false) /\
    worker w' = None /\
    ha_thread (ha_event_listener w') = Ended rl /\
    (config_path (Scenario.supervised Scenario.obedient false) <> None ->
     exists s, config_subscriber w' = Some s /\ sub_running s = false) /\
    running_threads w' =
      remove_first HaEventListener.thread_name
        (running_threads (Scenario.supervised Scenario.obedient false)) /\
    trace w' =
      trace (Scenario.supervised Scenario.obedient false)
      ++ [Log INFO (MsgWorkerStopping
                      (name (Scenario.supervised Scenario.obedient false)))].
Proof.
  apply (stop_without_worker_fails (Scenario.supervised Scenario.obedient false) 1).
  - reflexivity.
  - reflexivity.
  - lia.
Defined.

(** ** WaitableEvent: level-triggered *)

Lemma do_calls_app (cs1 cs2 : list WaitableEvent.call) (e : WaitableEvent.t) :
  WaitableEvent.do_calls (cs1 ++ cs2) e =
  match WaitableEvent.do_calls cs1 e with
  | Some e' => WaitableEvent.do_calls cs2 e'
  | None => None
  end.
Proof.
  revert e. induction cs1 as [| c cs1 IH]; intros e; simpl; [reflexivity |].
  destruct (WaitableEvent.do_call c e); [apply IH | reflexivity].
Qed.

(** X11: only the last call counts.  After any sequence of [set()] and
    [clear()] calls on a fresh object that ends with [set()], [wait]
    returns true at once for every timeout, also the unbounded one; after
    one that ends with [clear()], [wait] with a timeout returns false and
    the unbounded [wait] blocks. *)
Theorem waitable_event_last_call_wins (cs : list WaitableEvent.call) :
  exists s c : WaitableEvent.t,
    WaitableEvent.do_calls (cs ++ [WaitableEvent.CallSet]) WaitableEvent.__init__
      = Some s /\
    (forall timeout, WaitableEvent.wait timeout s = Some true) /\
    WaitableEvent.do_calls (cs ++ [WaitableEvent.CallClear]) WaitableEvent.__init__
      = Some c /\
    (forall t, WaitableEvent.wait (Some t) c = Some false) /\
    WaitableEvent.wait None c = None /\
    WaitableEvent.is_set c = Some false.
Proof.
  destruct (do_calls_at_most_one cs _ fresh_at_most_one) as (e & He & Hinv).
  exists {| WaitableEvent.pipe := ["1"%char] |}, {| WaitableEvent.pipe := [] |}.
  rewrite !do_calls_app, He. simpl.
  rewrite (set_total e Hinv), (clear_total e Hinv).
  repeat split.
Qed.

(** ** From construction to the first pass *)

(** X14: a supervisor whose construction succeeded and that is then
    started has, after the first half of its first loop pass, a live worker
    exactly when the enable leaf read at construction was true (always,
    when no path was given); that worker is a fresh process running
    [bg_fun]. *)
Theorem first_pass_after_construction
    (app : Process.App) (bg : BgFun) (path : option string) (t_read : Process.Trans)
    (w : World) :
  Process.__init__ app bg path t_read = Done tt w ->
  exists w1 w2,
    Process.start w = Done tt w1 /\
    Process.reconcile w1 = Done tt w2 /\
    Process.worker_is_alive w2 =
      match path with
      | Some p => truthy (Process.get_elem t_read p)
      | None => true
      end /\
    worker w2 =
      if Process.worker_is_alive w2 then Some (Worker.start bg) else None.
Proof.
  unfold Process.__init__, bind.
  destruct (Process.exists_ t_read "/tfnm:ncs-state/tfnm:ha") eqn:E;
    destruct path as [p |]; simpl; intros H;
    [discriminate H | discriminate H | |]; injection H as <-.
  - destruct (truthy (Process.get_elem t_read p)) eqn:Et;
      eexists; eexists; (split; [reflexivity |]);
      (split; [vm_compute; reflexivity |]); split; reflexivity.
  - eexists; eexists; (split; [reflexivity |]);
      (split; [vm_compute; reflexivity |]); split; reflexivity.
Qed.

Lemma first_pass_after_construction_witness :
  exists w1 w2,
    Process.start
      (Scenario.state_of
         (Process.__init__ Scenario.app Scenario.obedient (Some Scenario.leaf_path)
            (Scenario.store true false "none"))) = Done tt w1 /\
    Process.reconcile w1 = Done tt w2 /\
    Process.worker_is_alive w2 =
      match Some Scenario.leaf_path with
      | Some p => truthy (Process.get_elem (Scenario.store true false "none") p)
      | None => true
      end /\
    worker w2 =
      if Process.worker_is_alive w2 then Some (Worker.start Scenario.obedient) else None.
Proof.
  apply (first_pass_after_construction Scenario.app Scenario.obedient
           (Some Scenario.leaf_path) (Scenario.store true false "none")).
  reflexivity.
Defined.

(** ** A run of enable and disable events *)

Lemma reconcile_keeps_tame (w : World) :
  tame w = true ->
  exists w',
    Process.reconcile w = Done tt w' /\
    Process.worker_is_alive w' = decision w /\
    tame w' = true /\
    config_enabled w' = config_enabled w /\
    ha_enabled w' = ha_enabled w /\
    ha_master w' = ha_master w /\
    q w' = q w.
Proof.
  unfold tame. rewrite !andb_true_iff. intros [[Hk Hob] Hbg].
  destruct (should_run_decision w Hk) as (sr & Hsr & Ht).
  assert (Hrest : Process.worker_is_alive w = truthy sr ->
                  exists w',
                    Process.reconcile w = Done tt w' /\
                    Process.worker_is_alive w' = decision w /\
                    ha_known w' && obedient_worker w'
                      && negb (ignores_terminate (bg_fun w')) = true /\
                    config_enabled w' = config_enabled w /\
                    ha_enabled w' = ha_enabled w /\
                    ha_master w' = ha_master w /\
                    q w' = q w).
  { intros Ha. exists w. rewrite (reconcile_rests w sr Hsr Ha).
    split; [reflexivity |]. split; [congruence |].
    split; [now rewrite Hk, Hob, Hbg | repeat split]. }
  assert (Hfresh : forall tr,
             ha_known (set_trace tr (set_worker (Some (Worker.start (bg_fun w))) w))
             && obedient_worker
                  (set_trace tr (set_worker (Some (Worker.start (bg_fun w))) w))
             && negb (ignores_terminate
                        (bg_fun (set_trace tr
                                   (set_worker (Some (Worker.start (bg_fun w))) w))))
             = true).
  { intros tr. unfold obedient_worker. simpl.
    change (ha_known (set_trace tr (set_worker (Some (Worker.start (bg_fun w))) w)))
      with (ha_known w).
    now rewrite Hk, Hbg. }
  unfold obedient_worker in Hob.
  destruct (truthy sr) eqn:Etr; destruct (worker w) as [p |] eqn:Hw.
  - destruct (Worker.alive p) eqn:Ha.
    + apply Hrest. unfold Process.worker_is_alive. rewrite Hw. exact Ha.
    + rewrite (reconcile_restarts w sr p Hsr Etr Hw Ha).
      eexists. split; [reflexivity |].
      split; [rewrite <- Ht; reflexivity |].
      split; [apply Hfresh | repeat split].
  - rewrite (reconcile_starts w sr Hsr Etr Hw).
    eexists. split; [reflexivity |].
    split; [rewrite <- Ht; reflexivity |].
    split; [apply Hfresh | repeat split].
  - destruct (Worker.alive p) eqn:Ha.
    + rewrite (reconcile_stops w sr p Hsr Etr Hw Ha).
      eexists. split; [reflexivity |].
      assert (Hs : Worker.stubborn p = false)
        by (destruct (Worker.stubborn p); [discriminate Hob | reflexivity]).
      split; [| split; [| repeat split]].
      * rewrite <- Ht. unfold Process.worker_is_alive, Worker.is_alive. simpl.
        now rewrite Ha, Hs.
      * unfold obedient_worker. simpl.
        match goal with
        | |- ha_known ?x && _ && _ = true => change (ha_known x) with (ha_known w)
        end.
        now rewrite Hk, Hs, Hbg.
    + apply Hrest. unfold Process.worker_is_alive. rewrite Hw. exact Ha.
  - apply Hrest. unfold Process.worker_is_alive. rewrite Hw. reflexivity.
Qed.

Lemma last_enabled_step (b : bool) (bs : list bool) (v : val) :
  default (PyBool b) (PyBool <$> last bs) = default v (PyBool <$> last (b :: bs)).
Proof.
  destruct bs as [| c l]; [reflexivity |].
  change (last (b :: c :: l)) with (last (c :: l)).
  destruct (last (c :: l)) eqn:E; [reflexivity |].
  apply last_None in E. discriminate E.
Qed.

(** X15: the last event wins.  A tame supervisor whose queue holds any
    sequence of [('enabled', b)] items works it off in order and then idles
    with the queue empty, [config_enabled] equal to the last [b] (unchanged
    when there was none), the HA attributes untouched, and the worker alive
    exactly when the run decision on these final attributes says so. *)
Theorem loop_settles_on_last_enabled (bs : list bool) :
  forall (w : World) (fuel : nat),
    tame w = true ->
    q w = map enabled_item bs ->
    length bs < fuel ->
    exists w',
      Process.loop fuel w = Stuck w' /\
      q w' = [] /\
      config_enabled w' = default (config_enabled w) (PyBool <$> last bs) /\
      ha_enabled w' = ha_enabled w /\
      ha_master w' = ha_master w /\
      Process.worker_is_alive w' = decision w'.
Proof.
  induction bs as [| b bs IH]; intros w fuel Htame Hq Hfuel;
    (destruct fuel as [| fuel]; [simpl in Hfuel; lia |]);
    rewrite loop_pass; unfold Process.iteration; unfold bind at 1;
    destruct (reconcile_keeps_tame w Htame)
      as (w1 & -> & Ha1 & Htame1 & Hce1 & Hhe1 & Hhm1 & Hq1).
  - assert (Hk1 : ha_known w1 = true).
    { unfold tame in Htame1. rewrite !andb_true_iff in Htame1. tauto. }
    assert (Hd1 : decision w1 = decision w).
    { unfold decision. now rewrite Hce1, Hhe1, Hhm1. }
    unfold Process.receive, bind, q_get. rewrite Hq1, Hq. unfold ret.
    cbn [map]. cbv beta iota.
    assert (Hq0 : q w1 = []) by (rewrite Hq1, Hq; reflexivity).
    exists w1. rewrite loop_idles; [| exact Hk1 | congruence | exact Hq0].
    repeat split; try assumption; congruence.
  - rewrite (receive_other w1 (enabled_item b) (map enabled_item bs))
      by (rewrite Hq1, Hq; reflexivity).
    unfold enabled_item at 1. rewrite handle_enabled. cbv beta iota.
    match goal with
    | |- context [Process.loop fuel ?x] => set (w2 := x)
    end.
    destruct (IH w2 fuel) as (w' & Hloop & Hq' & Hce' & Hhe' & Hhm' & Ha').
    { exact Htame1. }
    { reflexivity. }
    { simpl in Hfuel. lia. }
    exists w'. split; [exact Hloop |]. split; [exact Hq' |].
    split; [| split; [| split]].
    + rewrite Hce'. apply last_enabled_step.
    + rewrite Hhe'. exact Hhe1.
    + rewrite Hhm'. exact Hhm1.
    + exact Ha'.
Qed.

Lemma loop_settles_on_last_enabled_witness :
  exists w',
    Process.loop 3
      (set_thread AtLoopTop
         (set_q (map enabled_item [false; true])
            (Scenario.supervised Scenario.obedient true))) = Stuck w' /\
    q w' = [] /\
    config_enabled w' =
      default
        (config_enabled
           (set_thread AtLoopTop
              (set_q (map enabled_item [false; true])
                 (Scenario.supervised Scenario.obedient true))))
        (PyBool <$> last [false; true]) /\
    ha_enabled w' =
      ha_enabled
        (set_thread AtLoopTop
           (set_q (map enabled_item [false; true])
              (Scenario.supervised Scenario.obedient true))) /\
    ha_master w' =
      ha_master
        (set_thread AtLoopTop
           (set_q (map enabled_item [false; true])
              (Scenario.supervised Scenario.obedient true))) /\
    Process.worker_is_alive w' = decision w'.
Proof.
  apply (loop_settles_on_last_enabled [false; true]
           (set_thread AtLoopTop
              (set_q (map enabled_item [false; true])
                 (Scenario.supervised Scenario.obedient true))) 3).
  - reflexivity.
  - reflexivity.
  - simpl. lia.
Defined.
